(** * pCloud sync target: the API client's retry loop and the file API driver

    A shallow embedding of [PCloudApi.exec] (with [responseToError], [apiUrl]
    and [execJson]) and of [FileApiDriverPCloud] ([makeItem], [statRaw],
    [stat], [list], [mkdir], [put], [createDirRecursively], [fileExists],
    [execCreateDir], [delete]).

    The code is asynchronous but strictly sequential, so a run is determined
    by the outcomes of the HTTP attempts it makes, in order.  The world is
    therefore the list of outcomes still to come (the script) together with
    a log of what the code did: every call of [exec], every HTTP attempt and
    every [time.sleep]. *)

From Stdlib Require Import Ascii String ZArith List Bool Lia.
Import ListNotations.
Open Scope string_scope.
Open Scope Z_scope.
Open Scope list_scope.

(** ** Data model *)

(** [type HttpMethod = 'GET' | 'POST' | 'PUT' | 'PATCH' | 'DELETE'] *)
Inductive HttpMethod := GET | POST | PUT | PATCH | DELETE.

Definition method_name (m : HttpMethod) : string :=
  match m with
  | GET => "GET" | POST => "POST" | PUT => "PUT"
  | PATCH => "PATCH" | DELETE => "DELETE"
  end.

Definition method_eqb (a b : HttpMethod) : bool :=
  match a, b with
  | GET, GET | POST, POST | PUT, PUT | PATCH, PATCH | DELETE, DELETE => true
  | _, _ => false
  end.

(** [type PCloudApiCommand] *)
Inductive PCloudApiCommand :=
| createfolderifnotexists | uploadfile | listfolder | stat_ | deletefile
| file_read | file_open | file_close | file_size | file_write.

Definition command_name (c : PCloudApiCommand) : string :=
  match c with
  | createfolderifnotexists => "createfolderifnotexists"
  | uploadfile => "uploadfile"
  | listfolder => "listfolder"
  | stat_ => "stat"
  | deletefile => "deletefile"
  | file_read => "file_read"
  | file_open => "file_open"
  | file_close => "file_close"
  | file_size => "file_size"
  | file_write => "file_write"
  end.

(** [enum PCloudResponseCodes] *)
Module PCloudResponseCodes.
Definition Ok : Z := 0.
Definition FileNotFound : Z := 2002.
Definition ParentNotFound : Z := 2005.
End PCloudResponseCodes.

(** [interface PcloudAuth]; only the fields the modelled code reads. *)
Record PcloudAuth := {
  access_token : string;
  hostname : string
}.

(** [interface PcloudFileMetadata].  [isdeleted] absent counts as false;
    [folderid] is absent on files; [contents] is present on listings. *)
#[warnings="-register-all"]
Inductive PcloudFileMetadata := {
  name : string;
  isfolder : bool;
  isdeleted : bool;
  created : string;
  modified : string;
  folderid : option Z;
  contents : option (list PcloudFileMetadata)
}.

(** The query objects the driver hands to [exec]. *)
Inductive Query :=
| QNull
| QPath (path : string)                        (* { path } *)
| QList (path : string) (recursive : Z)        (* { path, recursive } *)
| QCreate (folderid : option Z) (name : string)(* { folderid, name } *)
| QOpen (flags : Z) (path : string)            (* { flags, path } *)
| QFd (fd : option Z)                          (* { fd } *)
| QUpload (path filename : string).            (* { path, filename } *)

(** What the driver passes as [data]: file content, or (in [list]) the
    caller's listing options. *)
Inductive Data :=
| DText (s : string)
| DListOptions (includeDirs : bool).

(** JavaScript truthiness of the values the code tests. *)
Definition truthy_string (s : string) : bool :=
  match s with EmptyString => false | _ => true end.

Definition truthy_ostring (s : option string) : bool :=
  match s with Some s => truthy_string s | None => false end.

Definition truthy_data (d : option Data) : bool :=
  match d with
  | Some (DText s) => truthy_string s
  | Some (DListOptions _) => true
  | None => false
  end.

Definition ostring_is (s : option string) (lit : string) : bool :=
  match s with Some s => String.eqb s lit | None => false end.

(** [options.headers], as far as [exec] writes it. *)
Record Headers := {
  Authorization : option string;
  User_Agent : option string
}.

(** The [options] object of [exec] and [put]. *)
Record Options := {
  source : option string;
  target : option string;
  method : option HttpMethod;
  body : option Data;
  agent : bool;
  headers : option Headers;
  timeout : option Z
}.

Definition empty_options : Options :=
  {| source := None; target := None; method := None; body := None;
     agent := false; headers := None; timeout := None |}.

Definition set_headers (h : Headers) (o : Options) : Options :=
  {| source := source o; target := target o; method := method o;
     body := body o; agent := agent o; headers := Some h;
     timeout := timeout o |}.

Definition set_target (t : string) (o : Options) : Options :=
  {| source := source o; target := Some t; method := method o;
     body := body o; agent := agent o; headers := headers o;
     timeout := timeout o |}.

Definition set_method (m : HttpMethod) (o : Options) : Options :=
  {| source := source o; target := target o; method := Some m;
     body := body o; agent := agent o; headers := headers o;
     timeout := timeout o |}.

Definition set_body (d : Data) (o : Options) : Options :=
  {| source := source o; target := target o; method := method o;
     body := Some d; agent := agent o; headers := headers o;
     timeout := timeout o |}.

Definition set_timeout (t : Z) (o : Options) : Options :=
  {| source := source o; target := target o; method := method o;
     body := body o; agent := agent o; headers := headers o;
     timeout := Some t |}.

Definition set_agent (o : Options) : Options :=
  {| source := source o; target := target o; method := method o;
     body := body o; agent := true; headers := headers o;
     timeout := timeout o |}.

Definition set_source (s : string) (o : Options) : Options :=
  {| source := Some s; target := target o; method := method o;
     body := body o; agent := agent o; headers := headers o;
     timeout := timeout o |}.

(** The parsed body of a successful response, as the driver reads it:
    [result], [error], [metadata], [fd]. *)
Record Body := {
  result : Z;
  error : string;
  metadata : option PcloudFileMetadata;
  fd : option Z
}.

(** The body of a response with [!response.ok], as [JSON.parse] and
    [responseToError] see it. *)
Inductive ErrorBody :=
| Unparsable                       (* JSON.parse throws *)
| Falsy                            (* null, false, 0 or the empty string *)
| WithError (message : string) (code : option string)
                                   (* a truthy [error] member; [code] is its
                                      [code] when that is a non-empty string
                                      (any other value equals none of the
                                      literals the code compares it with) *)
| NoErrorMember.                   (* any other value *)

(** A response of the transport.  [json] is the body as [response.json()]
    gives it to the driver, [None] when it is not JSON; [error_json] is the
    body as [exec] parses it when [!response.ok]; [retry_after] is
    [response.headers._headers['retry-after']], [None] when there is no such
    entry (reading [[0]] off it then throws), otherwise the header values. *)
Record Response := {
  ok : bool;
  json : option Body;
  error_json : ErrorBody;
  retry_after : option (list string)
}.

(** An error thrown by the transport ([shim.fetch] and friends). *)
Record TransportError := {
  te_code : string;
  te_message : string
}.

(** The outcome of one HTTP attempt: the transport throws or responds. *)
Inductive Outcome :=
| NetworkError (e : TransportError)
| Responded (r : Response).

(** The three transports [exec] chooses from. *)
Inductive Transport := UploadBlob | Fetch | FetchBlob.

(** The error object built by [responseToError]: it has a [message] and
    possibly a [code]; it never has an [error] member. *)
Record ApiError := {
  ae_message : string;
  ae_code : option string
}.

(** Failures the modelled code raises. *)
Inductive Err :=
| TypeError                          (* a property read off null or undefined *)
| TransportFailure (e : TransportError)
| ApiFailure (e : ApiError) (m : HttpMethod) (url : string)
| Exhausted (m : HttpMethod) (url : string)
| JsonSyntaxError
| PathError
| ProviderError (error : string)
| DescriptorOpenError (path : string)
| DescriptorError (path : string) (result : Z) (error : string)
| CreateDirError (name : string) (parent : option Z) (result : Z)
                 (error : string)
| ExistenceCheckError (error : string)
| DeleteError (path : string) (error : string).

(** The message of the errors whose text is a plain concatenation. *)
Definition error_message (e : Err) : option string :=
  match e with
  | Exhausted m url =>
      Some ("Could not execute request after multiple attempts: "
              ++ method_name m ++ " " ++ url)%string
  | ProviderError error => Some error
  | ExistenceCheckError error =>
      Some ("Cannot check directory for existence: " ++ error)%string
  | DeleteError path error =>
      Some ("Could not delete file: " ++ path ++ ". Cause: " ++ error)%string
  | _ => None
  end.

(** ** What the code takes from outside

    JavaScript's [Number] and [isNaN], [query-string]'s [stringify],
    [moment], and the repository's [shim] and [path-utils] are not part of
    the two modelled files; the development is parametric in them.
    [dirname] and [basename] may throw ([None]). *)
Class Env := {
  jsnum : Type;
  Number : string -> jsnum;
  isNaN : jsnum -> bool;
  num_of_Z : Z -> jsnum;
  stringify : Query -> string;
  appVersion : string;
  fetchRequestCanBeRetried : TransportError -> bool;
  moment_format_x : string -> string;
  dirname : string -> option string;
  basename : string -> option string
}.

(** ** The world and the monad of the asynchronous code *)

(** A computation returns, throws, or is left waiting ([Stuck]) because
    the script or the recursion budget ran out. *)
Inductive Res (A : Type) :=
| Ret (a : A)
| Throw (e : Err)
| Stuck.
Arguments Ret {A} a.
Arguments Throw {A} e.
Arguments Stuck {A}.

Section Client.

Context {E : Env}.

(** What the code does, in order. *)
Inductive Event :=
| EvExec (m : HttpMethod) (c : PCloudApiCommand) (q : Query)
         (d : option Data)                     (* a call of [exec] *)
| EvSend (t : Transport) (url : string) (o : Options)
                                               (* one HTTP attempt *)
| EvSleep (seconds : jsnum).                   (* [time.sleep(seconds)] *)

Record World := {
  script : list Outcome;
  log : list Event
}.

Definition M (A : Type) : Type := World -> Res A * World.

Definition ret {A} (a : A) : M A := fun w => (Ret a, w).
Definition throw {A} (e : Err) : M A := fun w => (Throw e, w).
Definition stuck {A} : M A := fun w => (Stuck, w).

Definition bind {A B} (c : M A) (k : A -> M B) : M B :=
  fun w =>
    match c w with
    | (Ret a, w') => k a w'
    | (Throw e, w') => (Throw e, w')
    | (Stuck, w') => (Stuck, w')
    end.

#[local] Notation "x <- c ;; k" := (bind c (fun x => k))
  (at level 61, c at next level, right associativity).

Definition emit (e : Event) (w : World) : World :=
  {| script := script w; log := log w ++ [e] |}.

(** ** PCloudApi *)

(** [apiUrl(command, queryString)]; the caller has already read
    [this.auth_]. *)
Definition apiUrl (auth : PcloudAuth) (command : PCloudApiCommand)
    (queryString : string) : string :=
  ("https://" ++ hostname auth ++ "/" ++ command_name command ++ "?"
     ++ queryString)%string.

(** [get token()] *)
Definition token (auth : option PcloudAuth) : string :=
  match auth with Some a => access_token a | None => "null" end.

(** [responseToError(errorResponse)], on a body that parsed. *)
Definition responseToError (errorResponse : ErrorBody) : ApiError :=
  match errorResponse with
  | Falsy | Unparsable =>
      {| ae_message := "Undefined error"; ae_code := None |}
  | WithError message code => {| ae_message := message; ae_code := code |}
  | NoErrorMember => {| ae_message := "<JSON.stringify(errorResponse)>";
                        ae_code := None |}
  end.

Definition code_is (e : ApiError) (lit : string) : bool :=
  ostring_is (ae_code e) lit.

(** The part of [exec] before the loop that touches [options]. *)
Definition exec_options (m : HttpMethod) (data : option Data)
    (options : option Options) : Options :=
  let o := match options with Some o => o | None => empty_options end in
  let o := match headers o with
           | Some _ => o
           | None => set_headers {| Authorization := None;
                                    User_Agent := None |} o
           end in
  let o := if truthy_ostring (target o) then o else set_target "string" o in
  let o := if method_eqb m GET then o else set_method m o in
  let o := if truthy_data data then
             match data with Some d => set_body d o | None => o end
           else o in
  set_timeout (1000 * 60 * 5) o.

(** The two header assignments at the top of the loop body. *)
Definition loop_options (auth : option PcloudAuth) (o : Options) : Options :=
  set_headers
    {| Authorization := Some ("bearer " ++ token auth)%string;
       User_Agent := Some ("ISV|Joplin|Joplin/" ++ appVersion)%string |} o.

(** Which transport the [try] block calls. *)
Definition transport_of (m : HttpMethod) (o : Options) : Transport :=
  if ostring_is (source o) "file" && (method_eqb m POST || method_eqb m PUT)
  then UploadBlob
  else if ostring_is (target o) "string" then Fetch
  else FetchBlob.

(** [handleRequestRepeat(_, sleepSeconds)]: [sleepSeconds ??= (i + 1) * 5],
    then [time.sleep(sleepSeconds)]. *)
Definition handleRequestRepeat (i : Z) (sleepSeconds : option jsnum)
    (lg : list Event) : list Event :=
  let sleepSeconds := match sleepSeconds with
                      | Some s => s
                      | None => num_of_Z ((i + 1) * 5)
                      end in
  lg ++ [EvSleep sleepSeconds].

(** The [for (let i = 0; i < 5; i++)] loop of [exec], entered with counter
    [i].  Every [continue] goes through the loop's [i++]; the rate-limit
    branch does [i--] first.  The value [None] is the bare [return] of the
    DELETE branch. *)
Fixpoint exec_loop (auth : option PcloudAuth) (m : HttpMethod) (url : string)
    (options : Options) (i : Z) (sc : list Outcome) (lg : list Event)
    {struct sc} : Res (option Response) * World :=
  if i <? 5 then
    let options := loop_options auth options in
    match sc with
    | [] => (Stuck, {| script := []; log := lg |})
    | o :: rest =>
      let lg := lg ++ [EvSend (transport_of m options) url options] in
      match o with
      | NetworkError error =>
          if fetchRequestCanBeRetried error then
            exec_loop auth m url options (i + 1) rest
                      (handleRequestRepeat i None lg)
          else (Throw (TransportFailure error),
                {| script := rest; log := lg |})
      | Responded response =>
        if negb (ok response) then
          match error_json response with
          | Unparsable =>
              exec_loop auth m url options (i + 1) rest
                        (handleRequestRepeat i None lg)
          | errorResponse =>
            let error := responseToError errorResponse in
            if code_is error "InvalidAuthenticationToken"
               || code_is error "unauthenticated" then
              exec_loop auth m url options (i + 1) rest lg
            else if code_is error "generalException"
                    || code_is error "EAGAIN" then
              exec_loop auth m url options (i + 1) rest
                        (handleRequestRepeat i None lg)
            else if code_is error "resourceModified" then
              exec_loop auth m url options (i + 1) rest
                        (handleRequestRepeat i None lg)
            else if code_is error "activityLimitReached" then
              match retry_after response with
              | None => (Throw TypeError, {| script := rest; log := lg |})
              | Some values =>
                  let first := hd_error values in
                  if truthy_ostring first
                     && negb (isNaN (Number (match first with
                                             | Some s => s
                                             | None => ""
                                             end)))
                  then
                    let i := i - 1 in
                    let sleepSeconds := match first with
                                        | Some s => s
                                        | None => ""
                                        end in
                    exec_loop auth m url options (i + 1) rest
                      (handleRequestRepeat i (Some (Number sleepSeconds))
                                           lg)
                  else
                    (Throw (ApiFailure error m url),
                     {| script := rest; log := lg |})
              end
            else if code_is error "itemNotFound" && method_eqb m DELETE
            then (Ret None, {| script := rest; log := lg |})
            else
              (Throw (ApiFailure error m url),
               {| script := rest; log := lg |})
          end
        else (Ret (Some response), {| script := rest; log := lg |})
      end
    end
  else (Throw (Exhausted m url), {| script := sc; log := lg |}).

(** The caller's [options] object once [exec] has run its loop body: [exec]
    writes into the object it is given. *)
Definition options_after_exec (auth : option PcloudAuth) (m : HttpMethod)
    (data : option Data) (options : Options) : Options :=
  loop_options auth (exec_options m data (Some options)).

(** [exec(method, command, query, data, options)] *)
Definition exec (auth : option PcloudAuth) (m : HttpMethod)
    (command : PCloudApiCommand) (query : Query) (data : option Data)
    (options : option Options) : M (option Response) :=
  fun w =>
    let w := emit (EvExec m command query data) w in
    let options := exec_options m data options in
    match auth with
    | None => (Throw TypeError, w)
    | Some a =>
        let url := apiUrl a command (stringify query) in
        exec_loop auth m url options 0 (script w) (log w)
    end.

(** [execJson(method, command, query, data)] *)
Definition execJson (auth : option PcloudAuth) (m : HttpMethod)
    (command : PCloudApiCommand) (query : Query) (data : option Data)
    : M Body :=
  response <- exec auth m command query data None ;;
  match response with
  | None => throw TypeError
  | Some response =>
      match json response with
      | Some b => ret b
      | None => throw JsonSyntaxError
      end
  end.

End Client.

Notation "x <- c ;; k" := (bind c (fun x => k))
  (at level 61, c at next level, right associativity).

(** ** FileApiDriverPCloud *)

Section Driver.

Context {E : Env}.

(** [this.api_.auth]: the token the client holds while the driver runs. *)
Variable auth : option PcloudAuth.

(** A value of a timestamp member: [format('x')] gives a string, [Number]
    a number. *)
Inductive JsValue :=
| VString (s : string)
| VNumber (n : jsnum).

(** [interface PcloudFileStat] *)
Record PcloudFileStat := {
  path : string;
  isDir : bool;
  isDeleted : option bool;
  updated_time : option JsValue;
  created_time : option JsValue;
  stat_folderid : option string
}.

(** The object [list] returns. *)
Record ListResult := {
  hasMore : bool;
  items : list PcloudFileStat
}.

Definition makePath (path : string) : string :=
  if String.prefix "/" path then path else ("/" ++ path)%string.

Definition makeItem (odItem : PcloudFileMetadata) : PcloudFileStat :=
  let output := {| path := name odItem; isDir := isfolder odItem;
                   isDeleted := None; updated_time := None;
                   created_time := None; stat_folderid := None |} in
  if isdeleted odItem then
    {| path := path output; isDir := isDir output; isDeleted := Some true;
       updated_time := updated_time output;
       created_time := created_time output;
       stat_folderid := stat_folderid output |}
  else
    {| path := path output; isDir := isDir output;
       isDeleted := isDeleted output;
       updated_time :=
         Some (VNumber (Number (moment_format_x (modified odItem))));
       created_time := Some (VString (moment_format_x (created odItem)));
       stat_folderid := stat_folderid output |}.

Fixpoint makeItems_from (odItems : list PcloudFileMetadata)
    (output : list PcloudFileStat) : list PcloudFileStat :=
  match odItems with
  | [] => output
  | odItem :: odItems => makeItems_from odItems (output ++ [makeItem odItem])
  end.

Definition makeItems (odItems : list PcloudFileMetadata)
    : list PcloudFileStat :=
  makeItems_from odItems [].

(** [await response.json()] on what [exec] returned. *)
Definition response_json (response : option Response) : M Body :=
  match response with
  | None => throw TypeError
  | Some response =>
      match json response with
      | Some b => ret b
      | None => throw JsonSyntaxError
      end
  end.

(** A call into [path-utils]. *)
Definition path_util (r : option string) : M string :=
  match r with
  | Some s => ret s
  | None => throw PathError
  end.

Import PCloudResponseCodes.

Definition rootFolderMetadata : M (option PcloudFileMetadata) :=
  response <- execJson auth GET listfolder (QList "/" 0) None ;;
  ret (metadata response).

Definition statRaw (path : string) : M (option PcloudFileMetadata) :=
  if String.eqb "" path then rootFolderMetadata
  else
    response <- exec auth GET stat_ (QPath (makePath path)) None None ;;
    jsonResponse <- response_json response ;;
    if negb (result jsonResponse =? Ok) then
      if result jsonResponse =? FileNotFound then ret None
      else throw (ProviderError (error jsonResponse))
    else ret (metadata jsonResponse).

Definition stat (path : string) : M (option PcloudFileStat) :=
  item <- statRaw path ;;
  match item with
  | None => ret None
  | Some item => ret (Some (makeItem item))
  end.

(** [list(path, options)].  The source passes [options] in the position of
    [exec]'s [data] parameter. *)
Definition list_ (path : string) (options : option bool) : M ListResult :=
  response <- exec auth GET listfolder (QList (makePath path) 1)
                   (option_map DListOptions options) None ;;
  result_ <- response_json response ;;
  items <- (if result result_ =? FileNotFound then ret []
            else match metadata result_ with
                 | None => throw TypeError
                 | Some md =>
                     match contents md with
                     | None => throw TypeError
                     | Some cs => ret (makeItems cs)
                     end
                 end) ;;
  ret {| hasMore := false; items := items |}.

Definition execCreateDir (name : string) (parentFolderId : option Z)
    : M (option PcloudFileMetadata) :=
  response <- exec auth GET createfolderifnotexists
                   (QCreate parentFolderId name) None None ;;
  jsonResponse <- response_json response ;;
  if negb (result jsonResponse =? Ok) then
    throw (CreateDirError name parentFolderId (result jsonResponse)
                          (error jsonResponse))
  else ret (metadata jsonResponse).

Definition mkdir (path : string) : M PcloudFileStat :=
  item <- stat path ;;
  match item with
  | Some item => ret item
  | None =>
      parentPath <- path_util (dirname path) ;;
      parentPathMetadata <- statRaw parentPath ;;
      match parentPathMetadata with
      | None => throw TypeError
      | Some parentPathMetadata =>
          newItem <- execCreateDir parentPath
                                   (folderid parentPathMetadata) ;;
          match newItem with
          | None => throw TypeError
          | Some newItem => ret (makeItem newItem)
          end
      end
  end.

Definition fileExists (path : string) : M bool :=
  let query := QList (makePath path) 0 in
  response <- exec auth GET listfolder query None None ;;
  result_ <- response_json response ;;
  if negb (result result_ =? Ok) && negb (result result_ =? ParentNotFound)
  then throw (ExistenceCheckError (error result_))
  else ret (result result_ =? Ok).

(** [createDirRecursively(directoryPath)]; [fuel] bounds the depth of the
    recursion. *)
Fixpoint createDirRecursively (fuel : nat) (directoryPath : string)
    : M (option PcloudFileMetadata) :=
  match fuel with
  | O => stuck
  | S fuel =>
      if String.eqb "" directoryPath || String.eqb "/" directoryPath then
        statRaw directoryPath
      else
        parentDir <- path_util (dirname directoryPath) ;;
        exists_ <- fileExists parentDir ;;
        baseDirStat <- (if exists_ then statRaw parentDir
                        else createDirRecursively fuel parentDir) ;;
        base <- path_util (basename directoryPath) ;;
        match baseDirStat with
        | None => throw TypeError
        | Some baseDirStat => execCreateDir base (folderid baseDirStat)
        end
  end.

(** [if (!response.ok) throw Error(...)] in [put]; reading [ok] off the
    missing response of a bare [return] is a TypeError. *)
Definition response_ok (response : option Response) (path : string)
    : M Response :=
  match response with
  | None => throw TypeError
  | Some response =>
      if negb (ok response) then throw (DescriptorOpenError path)
      else ret response
  end.

(** [putFile(path, options)] *)
Definition putFile (fuel : nat) (path : string) (options : Options)
    : M (option Response) :=
  parentPath <- path_util (dirname path) ;;
  let options := set_source "file" options in
  exists_ <- fileExists parentPath ;;
  _ <- (if negb exists_ then createDirRecursively fuel parentPath
        else ret None) ;;
  filename <- path_util (basename path) ;;
  exec auth PUT uploadfile (QUpload ("/" ++ parentPath)%string filename)
       None (Some options).

(** [put(path, content, options)]; [fuel] bounds the number of nested
    calls.  [options] is one object, shared by the calls of [exec] and by
    the nested [put]. *)
Fixpoint put (fuel : nat) (path : string) (content : string)
    (options : option Options) : M (option Response) :=
  match fuel with
  | O => stuck
  | S fuel =>
      let path := makePath path in
      let options := match options with
                     | Some o => o
                     | None => empty_options
                     end in
      if ostring_is (source options) "file" then putFile fuel path options
      else
        let options := if agent options then options
                       else set_agent options in
        let query := QOpen 64 path in
        response <- exec auth GET file_open query None (Some options) ;;
        let options := options_after_exec auth GET None options in
        response <- response_ok response path ;;
        fileDescriptorResponse <- response_json (Some response) ;;
        if negb (result fileDescriptorResponse =? Ok) then
          if result fileDescriptorResponse =? FileNotFound then
            parent <- path_util (dirname path) ;;
            _ <- createDirRecursively fuel parent ;;
            put fuel path content (Some options)
          else throw (DescriptorError path (result fileDescriptorResponse)
                                      (error fileDescriptorResponse))
        else
          exec auth PUT file_write (QFd (fd fileDescriptorResponse))
               (Some (DText content)) (Some options)
  end.

(** [delete(path)] *)
Definition delete (path : string) : M (option PcloudFileMetadata) :=
  let path := makePath path in
  response <- exec auth GET deletefile (QPath path) None None ;;
  jsonResponse <- response_json response ;;
  if negb (result jsonResponse =? Ok) then
    throw (DeleteError path (error jsonResponse))
  else ret (metadata jsonResponse).

End Driver.

(** ** Vocabulary of the statements *)

Section Vocabulary.

Context {E : Env}.

(** The response arrived with [response.ok] and its body parses to [b]. *)
Definition answers (r : Response) (b : Body) : Prop :=
  ok r = true /\ json r = Some b.

(** The log entry of one HTTP attempt of a call of [exec]. *)
Definition send_event (auth : option PcloudAuth) (m : HttpMethod)
    (url : string) (options : Options) : Event :=
  EvSend (transport_of m (loop_options auth options)) url
         (loop_options auth options).

(** The log of a call of [exec] that is answered at its first attempt. *)
Definition direct_call (a : PcloudAuth) (m : HttpMethod)
    (command : PCloudApiCommand) (query : Query) (data : option Data)
    (options : option Options) : list Event :=
  [EvExec m command query data;
   send_event (Some a) m (apiUrl a command (stringify query))
              (exec_options m data options)].

(** The header value passes both tests of the rate-limit branch: it is
    truthy and [Number] of it is not NaN. *)
Definition numeric_header (h : string) : bool :=
  truthy_string h && negb (isNaN (Number h)).

(** The delay a rate-limit failure advertises: [Some h] when the attempt
    fails with code [activityLimitReached] and has [h] as the first value
    of a [retry-after] header that passes both tests. *)
Definition advertised_delay (o : Outcome) : option string :=
  match o with
  | NetworkError _ => None
  | Responded r =>
      if negb (ok r)
         && code_is (responseToError (error_json r)) "activityLimitReached"
      then match retry_after r with
           | Some (h :: _) => if numeric_header h then Some h else None
           | _ => None
           end
      else None
  end.

(** The failures that go through [handleRequestRepeat(error)]: a transport
    error that can be retried, an error body that is not JSON, and the
    codes [generalException], [EAGAIN] and [resourceModified]. *)
Definition ordinary_retryable (o : Outcome) : bool :=
  match o with
  | NetworkError e => fetchRequestCanBeRetried e
  | Responded r =>
      negb (ok r)
      && match error_json r with
         | Unparsable => true
         | b => code_is (responseToError b) "generalException"
                || code_is (responseToError b) "EAGAIN"
                || code_is (responseToError b) "resourceModified"
         end
  end.

(** The log of [n] failed attempts with linear backoff, the first one at
    counter [i]. *)
Fixpoint backoff_events (send : Event) (i : Z) (n : nat) : list Event :=
  match n with
  | O => []
  | S n => send :: EvSleep (num_of_Z ((i + 1) * 5))
                :: backoff_events send (i + 1) n
  end.

(** The log of the rate-limited attempts with headers [hs]. *)
Definition throttle_events (send : Event) (hs : list string) : list Event :=
  flat_map (fun h => [send; EvSleep (Number h)]) hs.

(** The calls of [exec] in a log that create a folder, as pairs of the
    parent's folder identifier and the name. *)
Fixpoint creation_calls (lg : list Event) : list (option Z * string) :=
  match lg with
  | [] => []
  | EvExec _ createfolderifnotexists (QCreate parent name) _ :: lg =>
      (parent, name) :: creation_calls lg
  | _ :: lg => creation_calls lg
  end.

(** The calls of [exec] in a log: verb, command and query. *)
Fixpoint exec_calls (lg : list Event)
    : list (HttpMethod * PCloudApiCommand * Query) :=
  match lg with
  | [] => []
  | EvExec m c q _ :: lg => (m, c, q) :: exec_calls lg
  | _ :: lg => exec_calls lg
  end.

(** The calls of [exec] in a log that open or write a file. *)
Definition is_file_io (c : HttpMethod * PCloudApiCommand * Query) : bool :=
  match c with
  | (_, file_open, _) | (_, file_write, _) => true
  | _ => false
  end.

Definition file_io_calls (lg : list Event)
    : list (HttpMethod * PCloudApiCommand * Query) :=
  filter is_file_io (exec_calls lg).

(** The log of [statRaw(path)] answered at the first attempt: a shallow
    listing of the root for the empty path, a [stat] query otherwise. *)
Definition lookup_call (a : PcloudAuth) (path : string) : list Event :=
  if String.eqb "" path
  then direct_call a GET listfolder (QList "/" 0) None None
  else direct_call a GET stat_ (QPath (makePath path)) None None.

(** The provider's answers while [createDirRecursively(d)] runs, when [d]
    and the [k - 1] directories above it are missing and the next one
    exists: for each missing level the existence check of its parent
    (answered [ParentNotFound], or OK for the last), once the metadata of
    the existing ancestor, and for each level the answer to its creation.
    [calls] lists, innermost last, the parent folder identifier and the
    name each level has to be created with; [md] is the metadata of [d]
    once created. *)
Inductive MissingChain : nat -> string -> list Outcome ->
    list (option Z * string) -> PcloudFileMetadata -> Prop :=
| chain_last (d parent base : string) (rp rs rc : Response)
    (bp bs bc : Body) (am md : PcloudFileMetadata) :
    String.eqb "" d || String.eqb "/" d = false ->
    dirname d = Some parent -> basename d = Some base ->
    answers rp bp -> result bp = PCloudResponseCodes.Ok ->
    answers rs bs -> result bs = PCloudResponseCodes.Ok ->
    metadata bs = Some am ->
    answers rc bc -> result bc = PCloudResponseCodes.Ok ->
    metadata bc = Some md ->
    MissingChain 1 d [Responded rp; Responded rs; Responded rc]
                 [(folderid am, base)] md
| chain_more (k : nat) (d parent base : string) (rp rc : Response)
    (bp bc : Body) (sc : list Outcome) (calls : list (option Z * string))
    (pm md : PcloudFileMetadata) :
    String.eqb "" d || String.eqb "/" d = false ->
    dirname d = Some parent -> basename d = Some base ->
    answers rp bp -> result bp = PCloudResponseCodes.ParentNotFound ->
    MissingChain k parent sc calls pm ->
    answers rc bc -> result bc = PCloudResponseCodes.Ok ->
    metadata bc = Some md ->
    MissingChain (S k) d (Responded rp :: sc ++ [Responded rc])
                 (calls ++ [(folderid pm, base)]) md.

End Vocabulary.

(** ** A concrete environment, to run the model

    [Number] reads decimal digits, anything else is NaN; the transport
    errors that can be retried are connection resets; [moment] is replaced
    by the identity; [dirname] and [basename] split at the last slash and
    refuse the empty path. *)
Module Sample.

Definition digit (c : Ascii.ascii) : option Z :=
  let n := Z.of_nat (Ascii.nat_of_ascii c) in
  if (48 <=? n) && (n <=? 57) then Some (n - 48) else None.

Fixpoint digits (s : string) (acc : Z) : option Z :=
  match s with
  | EmptyString => Some acc
  | String c s =>
      match digit c with
      | Some d => digits s (10 * acc + d)
      | None => None
      end
  end.

Definition read_number (s : string) : option Z := digits s 0.

Definition is_nan (n : option Z) : bool :=
  match n with Some _ => false | None => true end.

Fixpoint split_last (s : string) : option (string * string) :=
  match s with
  | EmptyString => None
  | String c r =>
      match split_last r with
      | Some (d, b) => Some (String c d, b)
      | None => if Ascii.eqb c "/"%char then Some (EmptyString, r) else None
      end
  end.

Definition dir_of (p : string) : option string :=
  match p with
  | EmptyString => None
  | _ => match split_last p with
         | Some (d, _) => Some d
         | None => Some EmptyString
         end
  end.

Definition base_of (p : string) : option string :=
  match p with
  | EmptyString => None
  | _ => match split_last p with
         | Some (_, b) => Some b
         | None => Some p
         end
  end.

Definition render (q : Query) : string :=
  match q with
  | QNull => ""
  | QPath p => "path=" ++ p
  | QList p _ => "path=" ++ p ++ "&recursive"
  | QCreate _ n => "folderid&name=" ++ n
  | QOpen _ p => "flags&path=" ++ p
  | QFd _ => "fd"
  | QUpload p f => "filename=" ++ f ++ "&path=" ++ p
  end%string.

Definition env : Env :=
  {| jsnum := option Z;
     Number := read_number;
     isNaN := is_nan;
     num_of_Z := Some;
     stringify := render;
     appVersion := "2.0.0";
     fetchRequestCanBeRetried :=
       fun e => String.eqb (te_code e) "ECONNRESET";
     moment_format_x := fun s => s;
     dirname := dir_of;
     basename := base_of |}.

Definition auth : PcloudAuth :=
  {| access_token := "t0"; hostname := "api.pcloud.com" |}.

(** A failed response with the given error code and [retry-after]. *)
Definition failure (message code : string) (ra : option (list string))
    : Response :=
  {| ok := false; json := None;
     error_json := WithError message (Some code); retry_after := ra |}.

Definition throttled (h : string) : Outcome :=
  Responded (failure "Too many requests" "activityLimitReached" (Some [h])).

Definition reset : Outcome :=
  NetworkError {| te_code := "ECONNRESET"; te_message := "reset" |}.

Definition garbled : Outcome :=
  Responded {| ok := false; json := None; error_json := Unparsable;
               retry_after := None |}.

(** A successful response with the given body. *)
Definition success (b : Body) : Response :=
  {| ok := true; json := Some b; error_json := NoErrorMember;
     retry_after := None |}.

Definition ok_body (m : option PcloudFileMetadata) : Body :=
  {| result := 0; error := ""; metadata := m; fd := None |}.

Definition code_body (code : Z) (msg : string) : Body :=
  {| result := code; error := msg; metadata := None; fd := None |}.

Definition reply (b : Body) : Outcome := Responded (success b).

Definition folder (n : string) (id : Z) : PcloudFileMetadata :=
  {| name := n; isfolder := true; isdeleted := false;
     created := "1000"; modified := "2000"; folderid := Some id;
     contents := None |}.

Definition root : PcloudFileMetadata := folder "/" 0.
Definition dir_a : PcloudFileMetadata := folder "a" 7.
Definition dir_b : PcloudFileMetadata := folder "b" 8.

Definition opened : Body :=
  {| result := 0; error := ""; metadata := None; fd := Some 3 |}.

(** The response to a write: successful, with a body that is not JSON. *)
Definition written : Response :=
  {| ok := true; json := None; error_json := Unparsable;
     retry_after := None |}.

Definition five_headers : list string := ["30"; "30"; "7"; "7"; "0"].

Definition five_failures : list Outcome :=
  [reset; garbled;
   Responded (failure "busy" "EAGAIN" None);
   Responded (failure "changed" "resourceModified" None);
   Responded (failure "oops" "generalException" None)].

End Sample.

(** ** Measures on logs and scripts *)

Section Measures.

Context {E : Env}.

(** The number of HTTP attempts in a log. *)
Fixpoint attempts (lg : list Event) : nat :=
  match lg with
  | [] => O
  | EvSend _ _ _ :: lg => S (attempts lg)
  | _ :: lg => attempts lg
  end.

(** The sleeps in a log, in order. *)
Fixpoint sleeps (lg : list Event) : list jsnum :=
  match lg with
  | [] => []
  | EvSleep n :: lg => n :: sleeps lg
  | _ :: lg => sleeps lg
  end.

(** Transport, [options.method] and [options.body] of the HTTP attempts in
    a log, in order. *)
Fixpoint requests (lg : list Event)
    : list (Transport * option HttpMethod * option Data) :=
  match lg with
  | [] => []
  | EvSend t _ o :: lg => (t, method o, body o) :: requests lg
  | _ :: lg => requests lg
  end.

(** The rate-limited outcomes of a script, counted. *)
Definition rate_limited_count (sc : list Outcome) : nat :=
  length (filter (fun o => match advertised_delay o with
                           | Some _ => true
                           | None => false
                           end) sc).

(** The failures of the first branch of [exec]'s classification: the codes
    [InvalidAuthenticationToken] and [unauthenticated]. *)
Definition auth_expired (o : Outcome) : bool :=
  match o with
  | NetworkError _ => false
  | Responded r =>
      negb (ok r)
      && match error_json r with
         | Unparsable => false
         | b => code_is (responseToError b) "InvalidAuthenticationToken"
                || code_is (responseToError b) "unauthenticated"
         end
  end.

(** The error matches none of the branches of [exec] that retry or return:
    it reaches the final [else]. *)
Definition unhandled (m : HttpMethod) (e : ApiError) : bool :=
  negb (code_is e "InvalidAuthenticationToken"
        || code_is e "unauthenticated"
        || code_is e "generalException"
        || code_is e "EAGAIN"
        || code_is e "resourceModified"
        || code_is e "activityLimitReached"
        || (code_is e "itemNotFound" && method_eqb m DELETE)).

(** [n] rounds of answers, each a [file_open] and the listing that follows
    it. *)
Fixpoint rounds (n : nat) (opened listed : Response) : list Outcome :=
  match n with
  | O => []
  | S n => Responded opened :: Responded listed :: rounds n opened listed
  end.

End Measures.

(** ** PCloudApi: the token and its listeners

    The client as an object: [auth_] and [listeners_].  The constructor
    creates [listeners_] with the single key [authRefreshed] and nothing
    adds a key, so the object is modelled by the list under that key.
    Listeners act on a state [S] of their own (the settings, say), may
    throw, and do not call back into the client. *)
Section Listeners.

Variable S : Type.

(** [Object.prototype] has a member under this name whose [length] is 0
    or undefined ([toString], [valueOf], ...): [dispatch] then finds
    something to loop over and loops zero times. *)
Variable silent_name : string -> bool.

Definition Callback : Type := option PcloudAuth -> S -> Res unit * S.

Record PCloudApi := {
  clientId_ : string;
  clientSecret_ : string;
  auth_ : option PcloudAuth;
  isPublic_ : bool;
  authRefreshed : list Callback
}.

(** [constructor(clientId, clientSecret, isPublic)] *)
Definition new_PCloudApi (clientId clientSecret : string)
    (isPublic : bool) : PCloudApi :=
  {| clientId_ := clientId; clientSecret_ := clientSecret;
     auth_ := None; isPublic_ := isPublic; authRefreshed := [] |}.

(** The [for] loop of [dispatch]. *)
Fixpoint call_listeners (ls : list Callback) (param : option PcloudAuth)
    (s : S) : Res unit * S :=
  match ls with
  | [] => (Ret tt, s)
  | l :: ls =>
      match l param s with
      | (Ret _, s) => call_listeners ls param s
      | (Throw e, s) => (Throw e, s)
      | (Stuck, s) => (Stuck, s)
      end
  end.

(** [dispatch(eventName, param)] *)
Definition dispatch (eventName : string) (param : option PcloudAuth)
    (api : PCloudApi) (s : S) : Res unit * S :=
  if String.eqb eventName "authRefreshed"
  then call_listeners (authRefreshed api) param s
  else if silent_name eventName then (Ret tt, s)
  else (Throw TypeError, s).

(** [on(eventName, callback)]: under any other name there is nothing with
    a [push]. *)
Definition on (eventName : string) (callback : Callback) (api : PCloudApi)
    : Res unit * PCloudApi :=
  if String.eqb eventName "authRefreshed"
  then (Ret tt,
        {| clientId_ := clientId_ api; clientSecret_ := clientSecret_ api;
           auth_ := auth_ api; isPublic_ := isPublic_ api;
           authRefreshed := authRefreshed api ++ [callback] |})
  else (Throw TypeError, api).

(** [setAuth(auth)] *)
Definition setAuth (auth : option PcloudAuth) (api : PCloudApi) (s : S)
    : Res unit * (PCloudApi * S) :=
  let api := {| clientId_ := clientId_ api;
                clientSecret_ := clientSecret_ api;
                auth_ := auth; isPublic_ := isPublic_ api;
                authRefreshed := authRefreshed api |} in
  let (r, s) := dispatch "authRefreshed" (auth_ api) api s in
  (r, (api, s)).

(** The client after [on('authRefreshed', callback)] for each of the
    callbacks, in order. *)
Fixpoint register_all (callbacks : list Callback) (api : PCloudApi)
    : PCloudApi :=
  match callbacks with
  | [] => api
  | callback :: callbacks =>
      register_all callbacks (snd (on "authRefreshed" callback api))
  end.

End Listeners.

Arguments clientId_ {S} _.
Arguments clientSecret_ {S} _.
Arguments auth_ {S} _.
Arguments isPublic_ {S} _.
Arguments authRefreshed {S} _.
Arguments new_PCloudApi {S} _ _ _.
Arguments call_listeners {S} _ _ _.
Arguments on {S} _ _ _.
Arguments register_all {S} _ _.

(** ** SyncTargetPCloud *)

(** Modelled from the spec: [Setting], the key-value setting store of the
    application ([models/Setting]), is not among the sources.  A store maps
    a key to its value, [None] for null; [Setting.value] reads it and
    [Setting.setValue] replaces the value under one key. *)
Definition Store : Type := string -> option string.

Definition Setting_value (key : string) (s : Store) : option string := s key.

Definition Setting_setValue (key : string) (value : option string)
    (s : Store) : Store :=
  fun k => if String.eqb k key then value else s k.

Section SyncTarget.

(** [JSON.parse] on the stored text: [None] when it throws, [Some None]
    when the text is [null], [Some (Some a)] when it is an auth object; and
    [JSON.stringify] on an auth object. *)
Variable JSON_parse : string -> option (option PcloudAuth).
Variable JSON_stringify : PcloudAuth -> string.

(** [parameters().pcloud] *)
Variables (pcloud_id pcloud_secret : string).

Variable silent_name : string -> bool.

(** The target holds its client, once created. *)
Record SyncTargetPCloud := {
  api_ : option (PCloudApi Store)
}.

(** [`sync.${this.syncTargetId()}.auth`], with [id()] being 11. *)
Definition auth_key : string := "sync.11.auth".

(** The listener that [api()] registers. *)
Definition save_auth : Callback Store :=
  fun a s =>
    (Ret tt,
     Setting_setValue auth_key
       (match a with
        | Some a => Some (JSON_stringify a)
        | None => None
        end) s).

(** [api()] *)
Definition api (t : SyncTargetPCloud) (s : Store)
    : Res (PCloudApi Store) * (SyncTargetPCloud * Store) :=
  match api_ t with
  | Some c => (Ret c, (t, s))
  | None =>
      let isPublic :=
        negb (ostring_is (Setting_value "appType" s) "cli")
        && negb (ostring_is (Setting_value "appType" s) "desktop") in
      let c := new_PCloudApi pcloud_id pcloud_secret isPublic in
      match on "authRefreshed" save_auth c with
      | (Ret _, c) =>
          let auth := Setting_value auth_key s in
          if truthy_ostring auth then
            let auth := match JSON_parse (match auth with
                                          | Some text => text
                                          | None => ""
                                          end) with
                        | Some parsed => parsed
                        | None => None
                        end in
            match setAuth Store silent_name auth c s with
            | (Ret _, (c, s)) => (Ret c, ({| api_ := Some c |}, s))
            | (Throw e, (c, s)) => (Throw e, ({| api_ := Some c |}, s))
            | (Stuck, (c, s)) => (Stuck, ({| api_ := Some c |}, s))
            end
          else (Ret c, ({| api_ := Some c |}, s))
      | (Throw e, c) => (Throw e, ({| api_ := Some c |}, s))
      | (Stuck, c) => (Stuck, ({| api_ := Some c |}, s))
      end
  end.

(** [isAuthenticated()]: [!!this.api().auth] *)
Definition isAuthenticated (t : SyncTargetPCloud) (s : Store)
    : Res bool * (SyncTargetPCloud * Store) :=
  match api t s with
  | (Ret c, ts) =>
      (Ret (match auth_ c with Some _ => true | None => false end), ts)
  | (Throw e, ts) => (Throw e, ts)
  | (Stuck, ts) => (Stuck, ts)
  end.

End SyncTarget.

(** Values to run the listeners and the sync target on. *)
Module Demo.

Definition parse (text : string) : option (option PcloudAuth) :=
  if String.eqb text "null" then Some None
  else if String.eqb text "{eu}"
       then Some (Some {| access_token := "t1";
                          hostname := "eapi.pcloud.com" |})
       else None.

Definition show (a : PcloudAuth) : string :=
  ("{" ++ access_token a ++ "@" ++ hostname a ++ "}")%string.

Definition silent (n : string) : bool :=
  String.eqb n "toString" || String.eqb n "valueOf".

Definition settings (stored : option string) : Store :=
  fun k => if String.eqb k "sync.11.auth" then stored
           else if String.eqb k "appType" then Some "desktop"
           else None.

Definition fresh : SyncTargetPCloud := {| api_ := None |}.

(** A listener that counts its calls, and one that throws. *)
Definition count_call : Callback nat :=
  fun _ n => (Ret tt, Datatypes.S n).

Definition refuse : Callback nat :=
  fun _ n => (Throw (ProviderError "refused"), n).

End Demo.

(** ** The retry loop *)

Section ExecLoop.

Context {E : Env}.

Variables (auth : option PcloudAuth) (m : HttpMethod) (url : string).

Lemma send_event_idem (o : Options) :
  send_event auth m url (loop_options auth o) = send_event auth m url o.
Proof. reflexivity. Qed.

Lemma code_is_eq (e : ApiError) (lit : string) :
  code_is e lit = true -> ae_code e = Some lit.
Proof.
  unfold code_is, ostring_is. destruct (ae_code e) as [c|]; [|discriminate].
  intros H. apply String.eqb_eq in H. now subst.
Qed.

(** A response with [response.ok] ends the loop at once. *)
Lemma exec_loop_ok (o : Options) (i : Z) (r : Response)
    (rest : list Outcome) (lg : list Event) :
  i < 5 -> ok r = true ->
  exec_loop auth m url o i (Responded r :: rest) lg
  = (Ret (Some r),
     {| script := rest; log := lg ++ [send_event auth m url o] |}).
Proof.
  intros Hi Hok. apply Z.ltb_lt in Hi. cbn [exec_loop].
  rewrite Hi, Hok. reflexivity.
Qed.

(** One rate-limited attempt: sleep for the advertised time, same counter. *)
Lemma exec_loop_rate_limited (o : Options) (i : Z) (f : Outcome)
    (h : string) (rest : list Outcome) (lg : list Event) :
  i < 5 -> advertised_delay f = Some h ->
  exec_loop auth m url o i (f :: rest) lg
  = exec_loop auth m url (loop_options auth o) i rest
      (lg ++ [send_event auth m url o; EvSleep (Number h)]).
Proof.
  intros Hi Hf. apply Z.ltb_lt in Hi.
  destruct f as [e | r]; [discriminate |]. cbn [advertised_delay] in Hf.
  destruct (negb (ok r)) eqn:Hok; [| discriminate]. cbn [andb] in Hf.
  destruct (code_is (responseToError (error_json r))
                    "activityLimitReached") eqn:Hcode; [| discriminate].
  destruct (retry_after r) as [[| h0 more] |] eqn:Hra; try discriminate.
  destruct (numeric_header h0) eqn:Hnum; [| discriminate].
  injection Hf as <-.
  pose proof (code_is_eq _ _ Hcode) as Hc.
  cbn [exec_loop]. rewrite Hi, Hok, Hra.
  destruct (error_json r) as [ | | message code | ]; cbn in Hc;
    try discriminate.
  subst code.
  cbn [responseToError code_is ae_code ostring_is String.eqb Ascii.eqb
       Bool.eqb orb andb hd_error truthy_ostring].
  unfold numeric_header in Hnum. rewrite Hnum.
  unfold handleRequestRepeat. rewrite Z.sub_add, <- app_assoc. reflexivity.
Qed.

(** One ordinary retryable failure: linear backoff, next counter. *)
Lemma exec_loop_backoff (o : Options) (i : Z) (f : Outcome)
    (rest : list Outcome) (lg : list Event) :
  i < 5 -> ordinary_retryable f = true ->
  exec_loop auth m url o i (f :: rest) lg
  = exec_loop auth m url (loop_options auth o) (i + 1) rest
      (lg ++ [send_event auth m url o; EvSleep (num_of_Z ((i + 1) * 5))]).
Proof.
  intros Hi Hf. apply Z.ltb_lt in Hi.
  cbn [exec_loop]. rewrite Hi. unfold handleRequestRepeat.
  rewrite <- app_assoc. cbn [app].
  destruct f as [e | r]; cbn [ordinary_retryable] in Hf.
  - rewrite Hf. reflexivity.
  - apply andb_prop in Hf. destruct Hf as [Hok Hf]. rewrite Hok.
    destruct (error_json r) as [ | | message code | ]; try reflexivity;
      try (cbn in Hf; discriminate).
    apply orb_prop in Hf. destruct Hf as [Hf | Hf];
      [apply orb_prop in Hf; destruct Hf as [Hf | Hf] |];
      pose proof (code_is_eq _ _ Hf) as Hc; cbn in Hc;
      subst code; reflexivity.
Qed.

(** An expired token is retried at once, without a sleep, and counts as
    an attempt. *)
Lemma exec_loop_auth_expired (o : Options) (i : Z) (r : Response)
    (message code : string) (rest : list Outcome) (lg : list Event) :
  i < 5 -> ok r = false ->
  error_json r = WithError message (Some code) ->
  code = "InvalidAuthenticationToken" \/ code = "unauthenticated" ->
  exec_loop auth m url o i (Responded r :: rest) lg
  = exec_loop auth m url (loop_options auth o) (i + 1) rest
      (lg ++ [send_event auth m url o]).
Proof.
  intros Hi Hok He Hc. apply Z.ltb_lt in Hi. cbn [exec_loop].
  rewrite Hi, Hok, He. destruct Hc as [-> | ->]; reflexivity.
Qed.

(** When the counter has reached 5 the loop is over. *)
Lemma exec_loop_done (o : Options) (i : Z) (sc : list Outcome)
    (lg : list Event) :
  5 <= i ->
  exec_loop auth m url o i sc lg
  = (Throw (Exhausted m url), {| script := sc; log := lg |}).
Proof.
  intros Hi. apply Z.ltb_ge in Hi. destruct sc; cbn [exec_loop];
    rewrite Hi; reflexivity.
Qed.

(** Rate-limited attempts in a row leave the counter where it was. *)
Lemma exec_loop_throttled (fs : list Outcome) :
  forall (hs : list string) (o : Options) (i : Z) (tl : list Outcome)
         (lg : list Event),
  i < 5 -> map advertised_delay fs = map Some hs ->
  exec_loop auth m url o i (fs ++ tl) lg
  = exec_loop auth m url
      (match fs with [] => o | _ => loop_options auth o end) i tl
      (lg ++ throttle_events (send_event auth m url o) hs).
Proof.
  induction fs as [| f fs IH]; intros hs o i tl lg Hi Hall;
    destruct hs as [| h hs]; try discriminate.
  - cbn. now rewrite app_nil_r.
  - cbn [map] in Hall. injection Hall as Hf Hfs. cbn [app].
    rewrite (exec_loop_rate_limited o i f h) by assumption.
    rewrite (IH hs) by assumption. rewrite send_event_idem.
    unfold throttle_events. cbn [flat_map]. rewrite <- !app_assoc.
    cbn [app]. destruct fs; reflexivity.
Qed.

(** Ordinary failures in a row use up the attempts. *)
Lemma exec_loop_exhaust (fs : list Outcome) :
  forall (o : Options) (i : Z) (tl : list Outcome) (lg : list Event),
  i + Z.of_nat (length fs) = 5 ->
  Forall (fun f => ordinary_retryable f = true) fs ->
  exec_loop auth m url o i (fs ++ tl) lg
  = (Throw (Exhausted m url),
     {| script := tl;
        log := lg ++ backoff_events (send_event auth m url o) i
                                    (length fs) |}).
Proof.
  induction fs as [| f fs IH]; intros o i tl lg Hlen Hall.
  - cbn in Hlen. cbn [app length backoff_events].
    rewrite exec_loop_done by lia. now rewrite app_nil_r.
  - inversion Hall as [| ? ? Hf Hfs]; subst. cbn [app length] in *.
    rewrite exec_loop_backoff by (assumption || lia).
    rewrite IH by (assumption || lia). rewrite send_event_idem.
    cbn [backoff_events]. rewrite <- app_assoc. reflexivity.
Qed.

(** With the verb DELETE an [itemNotFound] error ends the loop without a
    response. *)
Lemma exec_loop_delete_not_found (o : Options) (i : Z) (r : Response)
    (message : string) (rest : list Outcome) (lg : list Event) :
  m = DELETE -> i < 5 -> ok r = false ->
  error_json r = WithError message (Some "itemNotFound") ->
  exec_loop auth m url o i (Responded r :: rest) lg
  = (Ret None,
     {| script := rest; log := lg ++ [send_event auth m url o] |}).
Proof.
  intros Hm Hi Hok He. apply Z.ltb_lt in Hi. cbn [exec_loop].
  rewrite Hi, Hok, He, Hm. reflexivity.
Qed.

(** With any other verb the same error is rethrown. *)
Lemma exec_loop_not_found_rethrown (o : Options) (i : Z) (r : Response)
    (message : string) (rest : list Outcome) (lg : list Event) :
  method_eqb m DELETE = false -> i < 5 -> ok r = false ->
  error_json r = WithError message (Some "itemNotFound") ->
  exec_loop auth m url o i (Responded r :: rest) lg
  = (Throw (ApiFailure {| ae_message := message;
                          ae_code := Some "itemNotFound" |} m url),
     {| script := rest; log := lg ++ [send_event auth m url o] |}).
Proof.
  intros Hm Hi Hok He. apply Z.ltb_lt in Hi. cbn [exec_loop].
  rewrite Hi, Hok, He.
  cbn [responseToError code_is ae_code ostring_is String.eqb Ascii.eqb
       Bool.eqb orb andb negb].
  rewrite Hm. reflexivity.
Qed.

(** Whatever the outcomes, the loop itself makes no call of [exec]. *)
Lemma exec_calls_app (l1 l2 : list Event) :
  exec_calls (l1 ++ l2) = exec_calls l1 ++ exec_calls l2.
Proof.
  induction l1 as [| e l1 IH]; [reflexivity|].
  destruct e; cbn; try assumption. now rewrite IH.
Qed.

Lemma exec_loop_exec_calls (sc : list Outcome) :
  forall (o : Options) (i : Z) (lg : list Event),
  exec_calls (log (snd (exec_loop auth m url o i sc lg))) = exec_calls lg.
Proof.
  induction sc as [| f sc IH]; intros o i lg; cbn [exec_loop].
  - destruct (i <? 5); reflexivity.
  - assert (H1 : forall t u oo, exec_calls (lg ++ [EvSend t u oo])
                                = exec_calls lg).
    { intros. rewrite exec_calls_app. cbn. apply app_nil_r. }
    assert (H2 : forall t u oo j s,
               exec_calls (handleRequestRepeat j s (lg ++ [EvSend t u oo]))
               = exec_calls lg).
    { intros. unfold handleRequestRepeat. rewrite exec_calls_app, H1.
      cbn. apply app_nil_r. }
    destruct (i <? 5); [| reflexivity].
    destruct f as [e | r].
    + destruct (fetchRequestCanBeRetried e); [rewrite IH; apply H2|].
      cbn [snd log]. apply H1.
    + destruct (negb (ok r)); [| cbn [snd log]; apply H1].
      destruct (error_json r) as [ | | message code | ].
      * rewrite IH. apply H2.
      * cbn. apply H1.
      * repeat match goal with
               | |- context [if ?c then _ else _] => destruct c
               | |- context [match ?x with Some _ => _ | None => _ end] =>
                   destruct x
               end;
          try (rewrite IH); cbn [snd log]; try apply H1; try apply H2.
      * cbn. apply H1.
Qed.

End ExecLoop.

Section ExecCall.

Context {E : Env}.

Variables (a : PcloudAuth) (m : HttpMethod) (command : PCloudApiCommand)
          (query : Query) (data : option Data) (options : option Options).

(** [exec] answered at the first attempt returns that response. *)
Lemma exec_ok (r : Response) (rest : list Outcome) (lg : list Event) :
  ok r = true ->
  exec (Some a) m command query data options
       {| script := Responded r :: rest; log := lg |}
  = (Ret (Some r),
     {| script := rest;
        log := lg ++ direct_call a m command query data options |}).
Proof.
  intros Hok. unfold exec, emit. cbn [script log].
  rewrite exec_loop_ok by (assumption || lia).
  rewrite <- app_assoc. reflexivity.
Qed.

(** Whatever the outcomes, a call of [exec] logs exactly itself. *)
Lemma exec_exec_calls (auth : option PcloudAuth) (w : World) :
  exec_calls (log (snd (exec auth m command query data options w)))
  = exec_calls (log w) ++ [(m, command, query)].
Proof.
  unfold exec, emit. cbn [script log]. destruct auth as [a' |].
  - rewrite exec_loop_exec_calls. now rewrite exec_calls_app.
  - cbn [snd log]. now rewrite exec_calls_app.
Qed.

End ExecCall.

(** ** The driver on answers received at the first attempt *)

Section DriverFacts.

Context {E : Env}.

Variable a : PcloudAuth.

Import PCloudResponseCodes.

Lemma creation_calls_app (l1 l2 : list Event) :
  creation_calls (l1 ++ l2) = creation_calls l1 ++ creation_calls l2.
Proof.
  induction l1 as [| e l1 IH]; [reflexivity|].
  destruct e as [m c q d | |]; cbn; try assumption.
  destruct c; try assumption. destruct q; cbn; try assumption.
  now rewrite IH.
Qed.

Lemma file_io_calls_app (l1 l2 : list Event) :
  file_io_calls (l1 ++ l2) = file_io_calls l1 ++ file_io_calls l2.
Proof. unfold file_io_calls. now rewrite exec_calls_app, filter_app. Qed.

Lemma creation_calls_lookup (path : string) :
  creation_calls (lookup_call a path) = [].
Proof. unfold lookup_call. destruct (String.eqb "" path); reflexivity. Qed.

Lemma file_io_calls_lookup (path : string) :
  file_io_calls (lookup_call a path) = [].
Proof. unfold lookup_call. destruct (String.eqb "" path); reflexivity. Qed.

(** [statRaw] on the answer to its single query. *)
Lemma statRaw_answer (path : string) (r : Response) (b : Body)
    (rest : list Outcome) (lg : list Event) :
  answers r b ->
  statRaw (Some a) path {| script := Responded r :: rest; log := lg |}
  = (if String.eqb "" path then Ret (metadata b)
     else if result b =? Ok then Ret (metadata b)
     else if result b =? FileNotFound then Ret None
     else Throw (ProviderError (error b)),
     {| script := rest; log := lg ++ lookup_call a path |}).
Proof.
  intros [Hok Hj]. unfold statRaw, lookup_call, rootFolderMetadata, execJson.
  destruct (String.eqb "" path); unfold bind; rewrite exec_ok by assumption.
  - rewrite Hj. reflexivity.
  - cbn [response_json]. rewrite Hj. unfold ret, throw.
    destruct (result b =? Ok); cbn [negb];
      [reflexivity | destruct (result b =? FileNotFound); reflexivity].
Qed.

(** The lookup finds the entry: answered OK, with metadata. *)
Lemma statRaw_found (path : string) (r : Response) (b : Body)
    (md : PcloudFileMetadata) (rest : list Outcome) (lg : list Event) :
  answers r b -> result b = Ok -> metadata b = Some md ->
  statRaw (Some a) path {| script := Responded r :: rest; log := lg |}
  = (Ret (Some md), {| script := rest; log := lg ++ lookup_call a path |}).
Proof.
  intros Hj Hr Hm. rewrite (statRaw_answer _ _ _ _ _ Hj), Hr, Hm.
  destruct (String.eqb "" path); reflexivity.
Qed.

(** The lookup finds nothing: answered file-not-found, without metadata. *)
Lemma statRaw_not_found (path : string) (r : Response) (b : Body)
    (rest : list Outcome) (lg : list Event) :
  answers r b -> result b = FileNotFound -> metadata b = None ->
  statRaw (Some a) path {| script := Responded r :: rest; log := lg |}
  = (Ret None, {| script := rest; log := lg ++ lookup_call a path |}).
Proof.
  intros Hj Hr Hm. rewrite (statRaw_answer _ _ _ _ _ Hj), Hr, Hm.
  destruct (String.eqb "" path); reflexivity.
Qed.

(** [stat] on the answer to its single query. *)
Lemma stat_answer (path : string) (r : Response) (b : Body)
    (rest : list Outcome) (lg : list Event) :
  answers r b ->
  stat (Some a) path {| script := Responded r :: rest; log := lg |}
  = (if String.eqb "" path then Ret (option_map makeItem (metadata b))
     else if result b =? Ok then Ret (option_map makeItem (metadata b))
     else if result b =? FileNotFound then Ret None
     else Throw (ProviderError (error b)),
     {| script := rest; log := lg ++ lookup_call a path |}).
Proof.
  intros Hj. unfold stat, bind. rewrite (statRaw_answer _ _ _ _ _ Hj).
  destruct (String.eqb "" path).
  - destruct (metadata b); reflexivity.
  - destruct (result b =? Ok); [destruct (metadata b); reflexivity|].
    destruct (result b =? FileNotFound); reflexivity.
Qed.

Lemma stat_found (path : string) (r : Response) (b : Body)
    (md : PcloudFileMetadata) (rest : list Outcome) (lg : list Event) :
  answers r b -> result b = Ok -> metadata b = Some md ->
  stat (Some a) path {| script := Responded r :: rest; log := lg |}
  = (Ret (Some (makeItem md)),
     {| script := rest; log := lg ++ lookup_call a path |}).
Proof.
  intros Hj Hr Hm. unfold stat, bind.
  now rewrite (statRaw_found _ _ _ _ _ _ Hj Hr Hm).
Qed.

Lemma stat_not_found (path : string) (r : Response) (b : Body)
    (rest : list Outcome) (lg : list Event) :
  answers r b -> result b = FileNotFound -> metadata b = None ->
  stat (Some a) path {| script := Responded r :: rest; log := lg |}
  = (Ret None, {| script := rest; log := lg ++ lookup_call a path |}).
Proof.
  intros Hj Hr Hm. unfold stat, bind.
  now rewrite (statRaw_not_found _ _ _ _ _ Hj Hr Hm).
Qed.

(** [fileExists] on the answer to its listing. *)
Lemma fileExists_answer (path : string) (r : Response) (b : Body)
    (rest : list Outcome) (lg : list Event) :
  answers r b ->
  fileExists (Some a) path {| script := Responded r :: rest; log := lg |}
  = (if negb (result b =? Ok) && negb (result b =? ParentNotFound)
     then Throw (ExistenceCheckError (error b))
     else Ret (result b =? Ok),
     {| script := rest;
        log := lg ++ direct_call a GET listfolder
                                 (QList (makePath path) 0) None None |}).
Proof.
  intros [Hok Hj]. unfold fileExists, bind. rewrite exec_ok by assumption.
  cbn [response_json]. rewrite Hj. unfold ret, throw.
  destruct (negb (result b =? Ok) && negb (result b =? ParentNotFound));
    reflexivity.
Qed.

(** [execCreateDir] on the answer to its creation call. *)
Lemma execCreateDir_answer (name : string) (parentFolderId : option Z)
    (r : Response) (b : Body) (rest : list Outcome) (lg : list Event) :
  answers r b ->
  execCreateDir (Some a) name parentFolderId
                {| script := Responded r :: rest; log := lg |}
  = (if result b =? Ok then Ret (metadata b)
     else Throw (CreateDirError name parentFolderId (result b) (error b)),
     {| script := rest;
        log := lg ++ direct_call a GET createfolderifnotexists
                                 (QCreate parentFolderId name) None None |}).
Proof.
  intros [Hok Hj]. unfold execCreateDir, bind. rewrite exec_ok by assumption.
  cbn [response_json]. rewrite Hj. unfold ret, throw.
  destruct (result b =? Ok); reflexivity.
Qed.

(** [delete] on the answer to its single call. *)
Lemma delete_answer (path : string) (r : Response) (b : Body)
    (rest : list Outcome) (lg : list Event) :
  answers r b ->
  delete (Some a) path {| script := Responded r :: rest; log := lg |}
  = (if result b =? Ok then Ret (metadata b)
     else Throw (DeleteError (makePath path) (error b)),
     {| script := rest;
        log := lg ++ direct_call a GET deletefile
                                 (QPath (makePath path)) None None |}).
Proof.
  intros [Hok Hj]. unfold delete, bind. rewrite exec_ok by assumption.
  cbn [response_json]. rewrite Hj. unfold ret, throw.
  destruct (result b =? Ok); reflexivity.
Qed.

(** One creation per missing level, and at least one level. *)
Lemma MissingChain_depth (k : nat) (d : string) (sc : list Outcome)
    (calls : list (option Z * string)) (md : PcloudFileMetadata) :
  MissingChain k d sc calls md -> length calls = k /\ (1 <= k)%nat.
Proof.
  induction 1 as [| k d parent base rp rc bp bc sc calls pm md
                    _ _ _ _ _ _ IH _ _ _]; [split; [reflexivity | lia] |].
  rewrite length_app. cbn. lia.
Qed.

(** On the answers of a missing chain [createDirRecursively] returns the
    metadata of the innermost directory, having made exactly the creation
    calls of the chain and no file I/O. *)
Lemma createDirRecursively_chain (k : nat) (d : string)
    (sc : list Outcome) (calls : list (option Z * string))
    (md : PcloudFileMetadata) :
  MissingChain k d sc calls md ->
  forall (fuel : nat) (rest : list Outcome) (lg : list Event),
  (k <= fuel)%nat ->
  exists lg',
    createDirRecursively (Some a) fuel d
                         {| script := sc ++ rest; log := lg |}
    = (Ret (Some md), {| script := rest; log := lg' |})
    /\ creation_calls lg' = creation_calls lg ++ calls
    /\ file_io_calls lg' = file_io_calls lg.
Proof.
  induction 1 as [d parent base rp rs rc bp bs bc am md
                    Hd Hdir Hbase Hjp Hrp Hjs Hrs Hms Hjc Hrc Hmc
                 | k d parent base rp rc bp bc sc calls pm md
                    Hd Hdir Hbase Hjp Hrp Hchain IH Hjc Hrc Hmc];
    intros fuel rest lg Hfuel;
    (destruct fuel as [| fuel]; [lia |]);
    cbn [createDirRecursively]; rewrite Hd; unfold bind at 1;
    rewrite Hdir; cbn [path_util]; unfold ret at 1; unfold bind at 1;
    cbn [app]; rewrite (fileExists_answer parent rp bp _ _ Hjp), Hrp;
    cbn [negb andb Z.eqb Ok ParentNotFound Pos.eqb]; unfold bind at 1.
  - rewrite (statRaw_found parent rs bs am _ _ Hjs Hrs Hms).
    unfold bind at 1. rewrite Hbase. cbn [path_util]. unfold ret at 1.
    rewrite (execCreateDir_answer _ _ rc bc _ _ Hjc), Hrc, Hmc.
    eexists. split; [reflexivity|].
    rewrite !creation_calls_app, !file_io_calls_app,
            creation_calls_lookup, file_io_calls_lookup.
    cbn. rewrite !app_nil_r. split; reflexivity.
  - rewrite <- app_assoc.
    destruct (IH fuel ([Responded rc] ++ rest)
                 (lg ++ direct_call a GET listfolder
                                    (QList (makePath parent) 0) None None))
      as [lg1 [Hrun [Hcalls Hio]]]; [lia|].
    rewrite Hrun. unfold bind at 1. rewrite Hbase. cbn [path_util].
    unfold ret at 1. cbn [app].
    rewrite (execCreateDir_answer _ _ rc bc _ _ Hjc), Hrc, Hmc.
    eexists. split; [reflexivity|].
    rewrite creation_calls_app, file_io_calls_app, Hcalls, Hio.
    rewrite !creation_calls_app, !file_io_calls_app.
    cbn. rewrite !app_nil_r, <- app_assoc. split; reflexivity.
Qed.

Lemma prefix_empty (s : string) : String.prefix "" s = true.
Proof. destruct s; reflexivity. Qed.

(** A normalised path is left as it is. *)
Lemma makePath_idem (path : string) :
  makePath (makePath path) = makePath path.
Proof.
  unfold makePath. destruct (String.prefix "/" path) eqn:Hp.
  - now rewrite Hp.
  - cbn [append String.prefix].
    destruct (Ascii.ascii_dec "/" "/") as [_ | Hne]; [| congruence].
    now rewrite prefix_empty.
Qed.

(** [exec] does not touch [options.source]. *)
Lemma source_after_exec (auth : option PcloudAuth)
    (m : HttpMethod) (data : option Data) (o : Options) :
  source (options_after_exec auth m data o) = source o.
Proof.
  unfold options_after_exec, loop_options, exec_options.
  destruct (headers o); cbn;
    repeat match goal with
           | |- context [if ?c then _ else _] => destruct c; cbn
           | |- context [match ?x with Some _ => _ | None => _ end] =>
               destruct x; cbn
           end; reflexivity.
Qed.

Lemma source_set_agent (o : Options) :
  source (if agent o then o else set_agent o) = source o.
Proof. destruct (agent o); reflexivity. Qed.

End DriverFacts.

Section PutFacts.

Context {E : Env}.

Variable a : PcloudAuth.

Import PCloudResponseCodes.

(** The equation of [put] with one unit of fuel spent. *)
Lemma put_eq (fuel : nat) (path content : string)
    (options : option Options) :
  put (Some a) (S fuel) path content options
  = (let path := makePath path in
     let options := match options with
                    | Some o => o
                    | None => empty_options
                    end in
     if ostring_is (source options) "file"
     then putFile (Some a) fuel path options
     else
       let options := if agent options then options
                      else set_agent options in
       response <- exec (Some a) GET file_open (QOpen 64 path) None
                        (Some options) ;;
       let options := options_after_exec (Some a) GET None options in
       response <- response_ok response path ;;
       fileDescriptorResponse <- response_json (Some response) ;;
       if negb (result fileDescriptorResponse =? Ok) then
         if result fileDescriptorResponse =? FileNotFound then
           parent <- path_util (dirname path) ;;
           _ <- createDirRecursively (Some a) fuel parent ;;
           put (Some a) fuel path content (Some options)
         else throw (DescriptorError path (result fileDescriptorResponse)
                                     (error fileDescriptorResponse))
       else
         exec (Some a) PUT file_write (QFd (fd fileDescriptorResponse))
              (Some (DText content)) (Some options)).
Proof. reflexivity. Qed.

(** [put] whose [file_open] is answered OK writes and returns the response
    of the write. *)
Lemma put_opens_and_writes (fuel : nat) (path content : string)
    (o : Options) (r2 r3 : Response) (b2 : Body) (rest : list Outcome)
    (lg : list Event) :
  ostring_is (source o) "file" = false ->
  answers r2 b2 -> result b2 = Ok -> ok r3 = true ->
  exists lg',
    put (Some a) (S fuel) path content (Some o)
        {| script := Responded r2 :: Responded r3 :: rest; log := lg |}
    = (Ret (Some r3), {| script := rest; log := lg' |})
    /\ creation_calls lg' = creation_calls lg
    /\ file_io_calls lg'
       = file_io_calls lg ++ [(GET, file_open, QOpen 64 (makePath path));
                              (PUT, file_write, QFd (fd b2))].
Proof.
  intros Hsrc [Hok2 Hj2] Hr2 Hok3. eexists. split.
  - rewrite put_eq. cbv zeta. rewrite Hsrc.
    unfold bind at 1. rewrite exec_ok by assumption.
    unfold bind at 1. cbn [response_ok]. rewrite Hok2. cbn [negb].
    unfold ret at 1. unfold bind at 1. cbn [response_json]. rewrite Hj2.
    unfold ret at 1. rewrite Hr2. cbn [negb Z.eqb Ok].
    rewrite exec_ok by assumption. reflexivity.
  - rewrite !creation_calls_app, !file_io_calls_app. cbn.
    rewrite !app_nil_r, <- app_assoc. split; reflexivity.
Qed.

End PutFacts.

(** ** Claims about the retry loop *)

(** C1. A rate-limit failure ([activityLimitReached]) whose [retry-after]
    header is numeric makes the loop sleep for exactly the advertised
    number of seconds and go on with the same attempt counter; a call that
    meets any number of such failures in a row (five, say) and then a
    successful response returns that response. *)
Theorem rate_limit_sleeps_and_is_not_counted {E : Env}
    (a : PcloudAuth) (m : HttpMethod) (command : PCloudApiCommand)
    (query : Query) (data : option Data) (options : option Options)
    (url : string) (o : Options) (i : Z) (f : Outcome) (h : string)
    (fs : list Outcome) (hs : list string) (r : Response)
    (rest : list Outcome) (lg : list Event) :
  i < 5 ->
  advertised_delay f = Some h ->
  map advertised_delay fs = map Some hs ->
  ok r = true ->
  exec_loop (Some a) m url o i (f :: rest) lg
  = exec_loop (Some a) m url (loop_options (Some a) o) i rest
      (lg ++ [send_event (Some a) m url o; EvSleep (Number h)])
  /\
  exec (Some a) m command query data options
       {| script := fs ++ Responded r :: rest; log := lg |}
  = (Ret (Some r),
     {| script := rest;
        log := lg ++ [EvExec m command query data]
                  ++ throttle_events
                       (send_event (Some a) m
                          (apiUrl a command (stringify query))
                          (exec_options m data options)) hs
                  ++ [send_event (Some a) m
                        (apiUrl a command (stringify query))
                        (exec_options m data options)] |}).
Proof.
  intros Hi Hf Hfs Hok. split.
  - now apply exec_loop_rate_limited.
  - unfold exec, emit. cbn [script log].
    rewrite (exec_loop_throttled (Some a) m _ fs hs) by (assumption || lia).
    rewrite exec_loop_ok by (assumption || lia).
    rewrite <- !app_assoc.
    destruct fs; reflexivity.
Qed.

Lemma rate_limit_sleeps_and_is_not_counted_witness :
  fst (exec (E := Sample.env) (Some Sample.auth) GET listfolder
            (QList "/" 0) None None
            {| script := map Sample.throttled Sample.five_headers
                           ++ [Sample.reply (Sample.ok_body None)];
               log := [] |})
  = Ret (Some (Sample.success (Sample.ok_body None))).
Proof.
  pose proof (rate_limit_sleeps_and_is_not_counted (E := Sample.env)
                Sample.auth GET listfolder (QList "/" 0) None None
                "" empty_options 0 (Sample.throttled "30") "30"
                (map Sample.throttled Sample.five_headers)
                Sample.five_headers
                (Sample.success (Sample.ok_body None)) [] [])
    as H.
  destruct H as [_ H].
  - lia.
  - reflexivity.
  - reflexivity.
  - reflexivity.
  - unfold Sample.reply. rewrite H. reflexivity.
Defined.

(** C2. An ordinary retryable failure met with attempt counter [i] is
    followed by a sleep of [(i + 1) * 5] seconds; a call that meets five
    such failures in a row sleeps 5, 10, 15, 20 and 25 seconds and then
    throws the error whose message names the method and the URL. *)
Theorem backoff_is_linear_then_exhausted {E : Env}
    (a : PcloudAuth) (m : HttpMethod) (command : PCloudApiCommand)
    (query : Query) (data : option Data) (options : option Options)
    (url : string) (o : Options) (i : Z) (f : Outcome)
    (fs rest : list Outcome) (lg : list Event) :
  i < 5 ->
  ordinary_retryable f = true ->
  length fs = 5%nat ->
  Forall (fun f => ordinary_retryable f = true) fs ->
  exec_loop (Some a) m url o i (f :: rest) lg
  = exec_loop (Some a) m url (loop_options (Some a) o) (i + 1) rest
      (lg ++ [send_event (Some a) m url o;
              EvSleep (num_of_Z ((i + 1) * 5))])
  /\
  (let send := send_event (Some a) m (apiUrl a command (stringify query))
                          (exec_options m data options) in
   exec (Some a) m command query data options
        {| script := fs ++ rest; log := lg |}
   = (Throw (Exhausted m (apiUrl a command (stringify query))),
      {| script := rest;
         log := lg ++ [EvExec m command query data;
                       send; EvSleep (num_of_Z 5);
                       send; EvSleep (num_of_Z 10);
                       send; EvSleep (num_of_Z 15);
                       send; EvSleep (num_of_Z 20);
                       send; EvSleep (num_of_Z 25)] |}))
  /\
  error_message (Exhausted m (apiUrl a command (stringify query)))
  = Some ("Could not execute request after multiple attempts: "
            ++ method_name m ++ " "
            ++ apiUrl a command (stringify query))%string.
Proof.
  intros Hi Hf Hlen Hfs. split; [| split].
  - now apply exec_loop_backoff.
  - unfold exec, emit. cbn [script log].
    rewrite exec_loop_exhaust by (assumption || (rewrite Hlen; lia)).
    rewrite Hlen, <- app_assoc. reflexivity.
  - reflexivity.
Qed.

Lemma backoff_is_linear_then_exhausted_witness :
  fst (exec (E := Sample.env) (Some Sample.auth) GET stat_ (QPath "/a")
            None None {| script := Sample.five_failures; log := [] |})
  = Throw (Exhausted GET "https://api.pcloud.com/stat?path=/a").
Proof.
  pose proof (backoff_is_linear_then_exhausted (E := Sample.env)
                Sample.auth GET stat_ (QPath "/a") None None
                "" empty_options 0 Sample.reset Sample.five_failures
                [] []) as H.
  destruct H as [_ [H _]].
  - lia.
  - reflexivity.
  - reflexivity.
  - repeat constructor.
  - rewrite app_nil_r in H. rewrite H. reflexivity.
Defined.

(** ** Claims about the driver *)

(** C3. In-memory [put] whose [file_open] is answered file-not-found, with
    the parent directory and the [k - 1] directories above it missing:
    the driver makes exactly [k] creation calls, each with the name of its
    level and the folder identifier returned for that level's parent, then
    runs [put] once more from the top ([file_open] again, then
    [file_write]) and returns the response of the write. *)
Theorem put_creates_missing_chain_then_retries_once {E : Env}
    (a : PcloudAuth) (path content : string) (options : option Options)
    (parent : string) (k : nat) (chain : list Outcome)
    (calls : list (option Z * string)) (md : PcloudFileMetadata)
    (r1 r2 r3 : Response) (b1 b2 : Body) (rest : list Outcome)
    (lg : list Event) (fuel : nat) :
  ostring_is (source (match options with
                      | Some o => o
                      | None => empty_options
                      end)) "file" = false ->
  answers r1 b1 -> result b1 = PCloudResponseCodes.FileNotFound ->
  dirname (makePath path) = Some parent ->
  MissingChain k parent chain calls md ->
  answers r2 b2 -> result b2 = PCloudResponseCodes.Ok ->
  ok r3 = true ->
  (k < fuel)%nat ->
  exists lg',
    put (Some a) fuel path content options
        {| script := Responded r1 :: chain
                       ++ Responded r2 :: Responded r3 :: rest;
           log := lg |}
    = (Ret (Some r3), {| script := rest; log := lg' |})
    /\ length calls = k
    /\ creation_calls lg' = creation_calls lg ++ calls
    /\ file_io_calls lg'
       = file_io_calls lg
           ++ [(GET, file_open, QOpen 64 (makePath path));
               (GET, file_open, QOpen 64 (makePath path));
               (PUT, file_write, QFd (fd b2))].
Proof.
  intros Hsrc [Hok1 Hj1] Hr1 Hdir Hchain Hj2 Hr2 Hok3 Hfuel.
  destruct (MissingChain_depth _ _ _ _ _ Hchain) as [Hdepth Hpos].
  destruct fuel as [| fuel]; [lia |].
  destruct fuel as [| fuel]; [lia |].
  set (o0 := match options with Some o => o | None => empty_options end)
    in *.
  set (o1 := if agent o0 then o0 else set_agent o0).
  destruct (createDirRecursively_chain a k parent chain calls md Hchain
              (S fuel) (Responded r2 :: Responded r3 :: rest)
              (lg ++ direct_call a GET file_open (QOpen 64 (makePath path))
                     None (Some o1)))
    as [lg1 [Hrun [Hcalls Hio]]]; [lia |].
  destruct (put_opens_and_writes a fuel (makePath path) content
              (options_after_exec (Some a) GET None o1) r2 r3 b2 rest lg1)
    as [lg2 [Hretry [Hcalls2 Hio2]]]; try assumption.
  { rewrite source_after_exec. unfold o1.
    now rewrite source_set_agent. }
  exists lg2. split; [| split; [| split]].
  - rewrite put_eq. cbv zeta. fold o0. rewrite Hsrc. fold o1.
    unfold bind at 1. rewrite exec_ok by assumption.
    unfold bind at 1. cbn [response_ok]. rewrite Hok1. cbn [negb].
    unfold ret at 1. unfold bind at 1. cbn [response_json]. rewrite Hj1.
    unfold ret at 1. rewrite Hr1.
    cbn [negb Z.eqb PCloudResponseCodes.Ok
         PCloudResponseCodes.FileNotFound Pos.eqb].
    unfold bind at 1. rewrite Hdir. cbn [path_util]. unfold ret at 1.
    unfold bind at 1. rewrite Hrun. exact Hretry.
  - exact Hdepth.
  - rewrite Hcalls2, Hcalls, creation_calls_app. cbn.
    now rewrite app_nil_r.
  - rewrite Hio2, Hio, file_io_calls_app, makePath_idem. cbn.
    rewrite <- app_assoc. reflexivity.
Qed.

Lemma put_creates_missing_chain_then_retries_once_witness :
  fst (put (E := Sample.env) (Some Sample.auth) 3 "a/b/c.txt" "hello" None
         {| script :=
              [Sample.reply (Sample.code_body 2002 "not found");
               Sample.reply (Sample.code_body 2005 "no such directory");
               Sample.reply (Sample.ok_body (Some Sample.root));
               Sample.reply (Sample.ok_body (Some Sample.root));
               Sample.reply (Sample.ok_body (Some Sample.dir_a));
               Sample.reply (Sample.ok_body (Some Sample.dir_b));
               Sample.reply Sample.opened;
               Responded Sample.written];
            log := [] |})
  = Ret (Some Sample.written)
  /\
  creation_calls
    (log (snd (put (E := Sample.env) (Some Sample.auth) 3 "a/b/c.txt"
                 "hello" None
         {| script :=
              [Sample.reply (Sample.code_body 2002 "not found");
               Sample.reply (Sample.code_body 2005 "no such directory");
               Sample.reply (Sample.ok_body (Some Sample.root));
               Sample.reply (Sample.ok_body (Some Sample.root));
               Sample.reply (Sample.ok_body (Some Sample.dir_a));
               Sample.reply (Sample.ok_body (Some Sample.dir_b));
               Sample.reply Sample.opened;
               Responded Sample.written];
            log := [] |})))
  = [(Some 0, "a"); (Some 7, "b")].
Proof.
  assert (Hchain :
    MissingChain (E := Sample.env) 2 "/a/b"
      ([Sample.reply (Sample.code_body 2005 "no such directory")]
         ++ [Sample.reply (Sample.ok_body (Some Sample.root));
             Sample.reply (Sample.ok_body (Some Sample.root));
             Sample.reply (Sample.ok_body (Some Sample.dir_a))]
         ++ [Sample.reply (Sample.ok_body (Some Sample.dir_b))])
      ([(Some 0, "a")] ++ [(Some 7, "b")]) Sample.dir_b).
  { exact (chain_more (E := Sample.env) 1 "/a/b" "/a" "b"
             (Sample.success (Sample.code_body 2005 "no such directory"))
             (Sample.success (Sample.ok_body (Some Sample.dir_b)))
             (Sample.code_body 2005 "no such directory")
             (Sample.ok_body (Some Sample.dir_b))
             [Sample.reply (Sample.ok_body (Some Sample.root));
              Sample.reply (Sample.ok_body (Some Sample.root));
              Sample.reply (Sample.ok_body (Some Sample.dir_a))]
             [(Some 0, "a")] Sample.dir_a Sample.dir_b
             eq_refl eq_refl eq_refl (conj eq_refl eq_refl) eq_refl
             (chain_last (E := Sample.env) "/a" "" "a"
                (Sample.success (Sample.ok_body (Some Sample.root)))
                (Sample.success (Sample.ok_body (Some Sample.root)))
                (Sample.success (Sample.ok_body (Some Sample.dir_a)))
                (Sample.ok_body (Some Sample.root))
                (Sample.ok_body (Some Sample.root))
                (Sample.ok_body (Some Sample.dir_a))
                Sample.root Sample.dir_a
                eq_refl eq_refl eq_refl (conj eq_refl eq_refl) eq_refl
                (conj eq_refl eq_refl) eq_refl eq_refl
                (conj eq_refl eq_refl) eq_refl eq_refl)
             (conj eq_refl eq_refl) eq_refl eq_refl). }
  pose proof (put_creates_missing_chain_then_retries_once
                (E := Sample.env) Sample.auth "a/b/c.txt" "hello" None
                "/a/b" 2 _ _ Sample.dir_b
                (Sample.success (Sample.code_body 2002 "not found"))
                (Sample.success Sample.opened) Sample.written
                (Sample.code_body 2002 "not found") Sample.opened [] [] 3
                eq_refl (conj eq_refl eq_refl) eq_refl eq_refl Hchain
                (conj eq_refl eq_refl) eq_refl eq_refl)
    as H.
  destruct H as [lg' [Hrun [_ [Hcalls _]]]]; [lia |].
  unfold Sample.reply in *. cbn [app] in Hrun. rewrite Hrun.
  split; [reflexivity | exact Hcalls].
Defined.

(** C4, at the input where the code departs from it.  For the empty path
    [stat] reads the [metadata] member of a shallow listing of [/] without
    looking at the result code: when the provider answers that listing
    with a code that is neither OK nor file-not-found, [stat] returns null
    instead of raising. *)
Theorem stat_root_returns_null_on_provider_error {E : Env}
    (a : PcloudAuth) (r : Response) (b : Body) (rest : list Outcome)
    (lg : list Event) :
  answers r b ->
  result b <> PCloudResponseCodes.Ok ->
  result b <> PCloudResponseCodes.FileNotFound ->
  metadata b = None ->
  stat (Some a) "" {| script := Responded r :: rest; log := lg |}
  = (Ret None,
     {| script := rest;
        log := lg ++ direct_call a GET listfolder (QList "/" 0)
                                 None None |}).
Proof.
  intros Hj _ _ Hm. rewrite (stat_answer a "" r b rest lg Hj).
  cbn [String.eqb]. rewrite Hm. reflexivity.
Qed.

Lemma stat_root_returns_null_on_provider_error_witness :
  fst (stat (E := Sample.env) (Some Sample.auth) ""
         {| script := [Sample.reply (Sample.code_body 1000
                                       "Log in required.")];
            log := [] |})
  = Ret None.
Proof.
  unfold Sample.reply.
  rewrite (stat_root_returns_null_on_provider_error (E := Sample.env)
             Sample.auth _ (Sample.code_body 1000 "Log in required.")).
  - reflexivity.
  - split; reflexivity.
  - cbv. discriminate.
  - cbv. discriminate.
  - reflexivity.
Defined.

(** X9. For a path other than the empty one, [stat] follows the result
    code of the [stat] query: metadata on OK, null on file-not-found and
    only then, a failure on any other code. *)
Lemma stat_path_follows_result_code {E : Env}
    (a : PcloudAuth) (path : string) (r : Response) (b : Body)
    (md : PcloudFileMetadata) (rest : list Outcome) (lg : list Event) :
  String.eqb "" path = false ->
  answers r b ->
  (result b = PCloudResponseCodes.Ok -> metadata b = Some md) ->
  let out := fst (stat (Some a) path
                       {| script := Responded r :: rest; log := lg |}) in
  (out = Ret None <-> result b = PCloudResponseCodes.FileNotFound)
  /\ (result b <> PCloudResponseCodes.Ok ->
      result b <> PCloudResponseCodes.FileNotFound ->
      out = Throw (ProviderError (error b)))
  /\ (result b = PCloudResponseCodes.Ok -> out = Ret (Some (makeItem md))).
Proof.
  intros Hp Hj Hwf out. subst out.
  rewrite (stat_answer a path r b rest lg Hj), Hp. cbn [fst].
  unfold PCloudResponseCodes.Ok, PCloudResponseCodes.FileNotFound in *.
  destruct (Z.eqb_spec (result b) 0) as [H0 | H0].
  - rewrite (Hwf H0). cbn. repeat split; intros; try congruence; try lia.
  - destruct (Z.eqb_spec (result b) 2002) as [H1 | H1].
    + repeat split; intros; congruence.
    + repeat split; intros; congruence.
Qed.

(** C5. When the path exists, that is when the lookup is answered OK with
    metadata, [mkdir] returns the stat made from that metadata after this
    single lookup and without any creation call; called twice it returns
    the same stat both times and still creates nothing. *)
Theorem mkdir_existing_path_is_idempotent {E : Env}
    (a : PcloudAuth) (path : string) (r r' : Response) (b b' : Body)
    (md : PcloudFileMetadata) (rest : list Outcome) (lg : list Event) :
  answers r b -> result b = PCloudResponseCodes.Ok ->
  metadata b = Some md ->
  answers r' b' -> result b' = PCloudResponseCodes.Ok ->
  metadata b' = Some md ->
  mkdir (Some a) path {| script := Responded r :: rest; log := lg |}
  = (Ret (makeItem md),
     {| script := rest; log := lg ++ lookup_call a path |})
  /\
  (first <- mkdir (Some a) path ;;
   second <- mkdir (Some a) path ;;
   ret (first, second))
    {| script := Responded r :: Responded r' :: rest; log := lg |}
  = (Ret (makeItem md, makeItem md),
     {| script := rest;
        log := lg ++ lookup_call a path ++ lookup_call a path |})
  /\
  creation_calls (lg ++ lookup_call a path ++ lookup_call a path)
  = creation_calls lg.
Proof.
  intros Hj Hr Hm Hj' Hr' Hm'.
  assert (Hone : forall r0 b0 rest0 lg0,
             answers r0 b0 -> result b0 = PCloudResponseCodes.Ok ->
             metadata b0 = Some md ->
             mkdir (Some a) path
                   {| script := Responded r0 :: rest0; log := lg0 |}
             = (Ret (makeItem md),
                {| script := rest0; log := lg0 ++ lookup_call a path |})).
  { intros r0 b0 rest0 lg0 H1 H2 H3. unfold mkdir, bind.
    now rewrite (stat_found a path r0 b0 md rest0 lg0 H1 H2 H3). }
  split; [| split].
  - now apply (Hone r b).
  - unfold bind. rewrite (Hone r b) by assumption.
    rewrite (Hone r' b') by assumption. rewrite <- app_assoc. reflexivity.
  - rewrite !creation_calls_app, !creation_calls_lookup.
    now rewrite !app_nil_r.
Qed.

Lemma mkdir_existing_path_is_idempotent_witness :
  fst (mkdir (E := Sample.env) (Some Sample.auth) "a/b"
         {| script := [Sample.reply (Sample.ok_body (Some Sample.dir_b))];
            log := [] |})
  = Ret (makeItem Sample.dir_b).
Proof.
  pose proof (mkdir_existing_path_is_idempotent (E := Sample.env)
                Sample.auth "a/b"
                (Sample.success (Sample.ok_body (Some Sample.dir_b)))
                (Sample.success (Sample.ok_body (Some Sample.dir_b)))
                _ _ Sample.dir_b [] []
                (conj eq_refl eq_refl) eq_refl eq_refl
                (conj eq_refl eq_refl) eq_refl eq_refl)
    as [H _].
  unfold Sample.reply. rewrite H. reflexivity.
Defined.

(** C6, at the input where the code departs from it.  When the path does
    not exist and its parent does, [mkdir] issues one creation call scoped
    to the parent's folder identifier, but the name it asks for is the
    parent path ([dirname(path)]), not the final component of the path. *)
Theorem mkdir_creates_under_the_parent_path_name {E : Env}
    (a : PcloudAuth) (path parentPath : string) (r1 r2 r3 : Response)
    (b1 b2 b3 : Body) (pm nm : PcloudFileMetadata) (rest : list Outcome)
    (lg : list Event) :
  answers r1 b1 -> result b1 = PCloudResponseCodes.FileNotFound ->
  metadata b1 = None ->
  dirname path = Some parentPath ->
  answers r2 b2 -> result b2 = PCloudResponseCodes.Ok ->
  metadata b2 = Some pm ->
  answers r3 b3 -> result b3 = PCloudResponseCodes.Ok ->
  metadata b3 = Some nm ->
  mkdir (Some a) path
        {| script := Responded r1 :: Responded r2 :: Responded r3 :: rest;
           log := lg |}
  = (Ret (makeItem nm),
     {| script := rest;
        log := lg ++ lookup_call a path ++ lookup_call a parentPath
                  ++ direct_call a GET createfolderifnotexists
                       (QCreate (folderid pm) parentPath) None None |}).
Proof.
  intros Hj1 Hr1 Hm1 Hd Hj2 Hr2 Hm2 Hj3 Hr3 Hm3.
  unfold mkdir, bind.
  rewrite (stat_not_found a path r1 b1 _ _ Hj1 Hr1 Hm1).
  rewrite Hd. cbn [path_util]. unfold ret at 1.
  rewrite (statRaw_found a parentPath r2 b2 pm _ _ Hj2 Hr2 Hm2).
  rewrite (execCreateDir_answer a _ _ r3 b3 _ _ Hj3), Hr3, Hm3.
  rewrite <- !app_assoc. reflexivity.
Qed.

Lemma mkdir_creates_under_the_parent_path_name_witness :
  basename (Env := Sample.env) "a/b" = Some "b"
  /\ creation_calls
       (log (snd (mkdir (E := Sample.env) (Some Sample.auth) "a/b"
          {| script := [Sample.reply (Sample.code_body 2002 "not found");
                        Sample.reply (Sample.ok_body
                                        (Some (Sample.folder "a" 7)));
                        Sample.reply (Sample.ok_body
                                        (Some (Sample.folder "a" 9)))];
             log := [] |})))
     = [(Some 7, "a")].
Proof.
  split; [reflexivity|].
  unfold Sample.reply.
  rewrite (mkdir_creates_under_the_parent_path_name (E := Sample.env)
             Sample.auth "a/b" "a"
             (Sample.success (Sample.code_body 2002 "not found"))
             (Sample.success (Sample.ok_body (Some (Sample.folder "a" 7))))
             (Sample.success (Sample.ok_body (Some (Sample.folder "a" 9))))
             (Sample.code_body 2002 "not found")
             (Sample.ok_body (Some (Sample.folder "a" 7)))
             (Sample.ok_body (Some (Sample.folder "a" 9)))
             (Sample.folder "a" 7) (Sample.folder "a" 9) [] []
             (conj eq_refl eq_refl) eq_refl eq_refl eq_refl
             (conj eq_refl eq_refl) eq_refl eq_refl
             (conj eq_refl eq_refl) eq_refl eq_refl).
  reflexivity.
Defined.

(** C7. With the verb DELETE, [exec] answers an [itemNotFound] error by
    returning without a response, at whatever attempt it arrives.  The
    driver's [delete] calls [exec] with GET: it raises on every result
    code other than OK, and the same [itemNotFound] error is rethrown. *)
Theorem delete_not_found_client_versus_driver {E : Env}
    (a : PcloudAuth) (command : PCloudApiCommand) (query : Query)
    (data : option Data) (options : option Options) (url : string)
    (o : Options) (i : Z) (message : string) (rf : Response)
    (path : string) (r : Response) (b : Body) (rest : list Outcome)
    (lg : list Event) :
  i < 5 ->
  ok rf = false ->
  error_json rf = WithError message (Some "itemNotFound") ->
  answers r b ->
  result b <> PCloudResponseCodes.Ok ->
  exec_loop (Some a) DELETE url o i (Responded rf :: rest) lg
  = (Ret None,
     {| script := rest;
        log := lg ++ [send_event (Some a) DELETE url o] |})
  /\
  exec (Some a) DELETE command query data options
       {| script := Responded rf :: rest; log := lg |}
  = (Ret None,
     {| script := rest;
        log := lg ++ direct_call a DELETE command query data options |})
  /\
  delete (Some a) path {| script := Responded r :: rest; log := lg |}
  = (Throw (DeleteError (makePath path) (error b)),
     {| script := rest;
        log := lg ++ direct_call a GET deletefile (QPath (makePath path))
                                 None None |})
  /\
  delete (Some a) path {| script := Responded rf :: rest; log := lg |}
  = (Throw (ApiFailure {| ae_message := message;
                          ae_code := Some "itemNotFound" |} GET
                       (apiUrl a deletefile
                               (stringify (QPath (makePath path))))),
     {| script := rest;
        log := lg ++ direct_call a GET deletefile (QPath (makePath path))
                                 None None |}).
Proof.
  intros Hi Hok He Hj Hr. split; [| split; [| split]].
  - now apply exec_loop_delete_not_found with (message := message).
  - unfold exec, emit. cbn [script log].
    rewrite exec_loop_delete_not_found with (message := message)
      by (reflexivity || assumption || lia).
    rewrite <- app_assoc. reflexivity.
  - rewrite (delete_answer a path r b rest lg Hj).
    destruct (Z.eqb_spec (result b) PCloudResponseCodes.Ok);
      [contradiction | reflexivity].
  - unfold delete, bind, exec, emit. cbn [script log].
    rewrite exec_loop_not_found_rethrown with (message := message)
      by (reflexivity || assumption || lia).
    rewrite <- app_assoc. reflexivity.
Qed.

Lemma delete_not_found_client_versus_driver_witness :
  fst (exec (E := Sample.env) (Some Sample.auth) DELETE deletefile
            (QPath "/gone.md") None None
            {| script := [Responded (Sample.failure "No such file"
                                       "itemNotFound" None)];
               log := [] |})
  = Ret None
  /\
  fst (delete (E := Sample.env) (Some Sample.auth) "gone.md"
         {| script := [Sample.reply (Sample.code_body 2009
                                       "File not found.")];
            log := [] |})
  = Throw (DeleteError "/gone.md" "File not found.").
Proof.
  pose proof (delete_not_found_client_versus_driver (E := Sample.env)
                Sample.auth deletefile (QPath "/gone.md") None None ""
                empty_options 0 "No such file"
                (Sample.failure "No such file" "itemNotFound" None)
                "gone.md"
                (Sample.success (Sample.code_body 2009 "File not found."))
                (Sample.code_body 2009 "File not found.") [] [])
    as H.
  destruct H as [_ [H1 [H2 _]]].
  - lia.
  - reflexivity.
  - reflexivity.
  - split; reflexivity.
  - cbv. discriminate.
  - unfold Sample.reply. rewrite H1, H2. split; reflexivity.
Defined.

(** C8. [list] makes exactly one call of [exec], a listing of the path
    with [recursive: 1], whatever the provider does; whenever it returns,
    [hasMore] is false; and when the listing is answered file-not-found it
    returns an empty list of items. *)
Theorem list_is_one_recursive_listing_without_pagination {E : Env}
    (auth : option PcloudAuth) (a : PcloudAuth) (path : string)
    (options : option bool) (w : World) (r : Response) (b : Body)
    (rest : list Outcome) (lg : list Event) :
  answers r b ->
  result b = PCloudResponseCodes.FileNotFound ->
  exec_calls (log (snd (list_ auth path options w)))
  = exec_calls (log w) ++ [(GET, listfolder, QList (makePath path) 1)]
  /\
  (forall v w', list_ auth path options w = (Ret v, w') ->
                hasMore v = false)
  /\
  list_ (Some a) path options
        {| script := Responded r :: rest; log := lg |}
  = (Ret {| hasMore := false; items := [] |},
     {| script := rest;
        log := lg ++ direct_call a GET listfolder (QList (makePath path) 1)
                                 (option_map DListOptions options) None |}).
Proof.
  intros [Hok Hj] Hr. split; [| split].
  - unfold list_, bind.
    pose proof (exec_exec_calls GET listfolder
                  (QList (makePath path) 1)
                  (option_map DListOptions options) None auth w) as Hex.
    destruct (exec auth GET listfolder (QList (makePath path) 1)
                   (option_map DListOptions options) None w)
      as [[resp | e |] w1]; cbn [snd] in *; try assumption.
    destruct resp as [resp |]; cbn [response_json]; [| assumption].
    destruct (json resp) as [bd |]; [| assumption].
    unfold ret at 1.
    destruct (result bd =? PCloudResponseCodes.FileNotFound);
      [assumption |].
    destruct (metadata bd) as [md |]; [| assumption].
    destruct (contents md); assumption.
  - intros v w'. unfold list_, bind.
    destruct (exec auth GET listfolder (QList (makePath path) 1)
                   (option_map DListOptions options) None w)
      as [[resp | e |] w1]; try discriminate.
    destruct resp as [resp |]; cbn [response_json]; [| discriminate].
    destruct (json resp) as [bd |]; [| discriminate].
    unfold ret at 1.
    destruct (result bd =? PCloudResponseCodes.FileNotFound).
    + unfold ret. intros H. injection H as <- _. reflexivity.
    + destruct (metadata bd) as [md |]; [| discriminate].
      destruct (contents md); [| discriminate].
      unfold ret. intros H. injection H as <- _. reflexivity.
  - unfold list_, bind. rewrite exec_ok by assumption.
    cbn [response_json]. rewrite Hj. unfold ret at 1. rewrite Hr.
    reflexivity.
Qed.

Lemma list_is_one_recursive_listing_without_pagination_witness :
  fst (list_ (E := Sample.env) (Some Sample.auth) "notes/new" None
         {| script := [Sample.reply (Sample.code_body 2002 "not found")];
            log := [] |})
  = Ret {| hasMore := false; items := [] |}.
Proof.
  pose proof (list_is_one_recursive_listing_without_pagination
                (E := Sample.env) (Some Sample.auth) Sample.auth
                "notes/new" None {| script := []; log := [] |}
                (Sample.success (Sample.code_body 2002 "not found"))
                (Sample.code_body 2002 "not found") [] []
                (conj eq_refl eq_refl) eq_refl) as [_ [_ H]].
  unfold Sample.reply. rewrite H. reflexivity.
Defined.

(** C9, at the input where the code departs from it.  For a record that is
    not marked deleted [makeItem] stores the updated time as a number, but
    the created time as the text that [format('x')] returns, not as a
    number.  Path and directory flag are copied; a deleted record gets the
    deleted flag and no timestamps. *)
Theorem makeItem_created_time_is_text {E : Env}
    (n c mo : string) (f : bool) (fid : option Z)
    (cs : option (list PcloudFileMetadata)) :
  (makeItem {| name := n; isfolder := f; isdeleted := false; created := c;
               modified := mo; folderid := fid; contents := cs |}
   = {| path := n; isDir := f; isDeleted := None;
        updated_time := Some (VNumber (Number (moment_format_x mo)));
        created_time := Some (VString (moment_format_x c));
        stat_folderid := None |})
  /\
  (makeItem {| name := n; isfolder := f; isdeleted := true; created := c;
               modified := mo; folderid := fid; contents := cs |}
   = {| path := n; isDir := f; isDeleted := Some true;
        updated_time := None; created_time := None;
        stat_folderid := None |}).
Proof. split; reflexivity. Qed.

(** C10. When the path does not exist and the lookup of its parent is
    answered file-not-found as well, [statRaw] returns null for the parent
    and [mkdir] reads [folderid] off it: the call fails with a TypeError
    after the two lookups, without any creation call. *)
Theorem mkdir_missing_parent_is_a_null_dereference {E : Env}
    (a : PcloudAuth) (path parentPath : string) (r1 r2 : Response)
    (b1 b2 : Body) (rest : list Outcome) (lg : list Event) :
  answers r1 b1 -> result b1 = PCloudResponseCodes.FileNotFound ->
  metadata b1 = None ->
  dirname path = Some parentPath ->
  answers r2 b2 -> result b2 = PCloudResponseCodes.FileNotFound ->
  metadata b2 = None ->
  statRaw (Some a) parentPath
          {| script := Responded r2 :: rest;
             log := lg ++ lookup_call a path |}
  = (Ret None,
     {| script := rest;
        log := (lg ++ lookup_call a path) ++ lookup_call a parentPath |})
  /\
  mkdir (Some a) path
        {| script := Responded r1 :: Responded r2 :: rest; log := lg |}
  = (Throw TypeError,
     {| script := rest;
        log := (lg ++ lookup_call a path) ++ lookup_call a parentPath |})
  /\
  creation_calls ((lg ++ lookup_call a path) ++ lookup_call a parentPath)
  = creation_calls lg.
Proof.
  intros Hj1 Hr1 Hm1 Hd Hj2 Hr2 Hm2. split; [| split].
  - now apply statRaw_not_found with (b := b2).
  - unfold mkdir, bind.
    rewrite (stat_not_found a path r1 b1 _ _ Hj1 Hr1 Hm1).
    rewrite Hd. cbn [path_util]. unfold ret at 1.
    now rewrite (statRaw_not_found a parentPath r2 b2 _ _ Hj2 Hr2 Hm2).
  - rewrite !creation_calls_app, !creation_calls_lookup.
    now rewrite !app_nil_r.
Qed.

Lemma mkdir_missing_parent_is_a_null_dereference_witness :
  fst (mkdir (E := Sample.env) (Some Sample.auth) "x/y"
         {| script := [Sample.reply (Sample.code_body 2002 "not found");
                       Sample.reply (Sample.code_body 2002 "not found")];
            log := [] |})
  = Throw TypeError.
Proof.
  pose proof (mkdir_missing_parent_is_a_null_dereference (E := Sample.env)
                Sample.auth "x/y" "x"
                (Sample.success (Sample.code_body 2002 "not found"))
                (Sample.success (Sample.code_body 2002 "not found"))
                _ _ [] [] (conj eq_refl eq_refl) eq_refl eq_refl eq_refl
                (conj eq_refl eq_refl) eq_refl eq_refl) as [_ [H _]].
  unfold Sample.reply. rewrite H. reflexivity.
Defined.

(** ** More about the retry loop *)

Section LoopFacts.

Context {E : Env}.

Lemma attempts_app (l1 l2 : list Event) :
  attempts (l1 ++ l2) = (attempts l1 + attempts l2)%nat.
Proof.
  induction l1 as [| e l1 IH]; [reflexivity|].
  destruct e; cbn; now rewrite IH.
Qed.

Lemma sleeps_app (l1 l2 : list Event) :
  sleeps (l1 ++ l2) = sleeps l1 ++ sleeps l2.
Proof.
  induction l1 as [| e l1 IH]; [reflexivity|].
  destruct e; cbn; now rewrite IH.
Qed.

Lemma requests_app (l1 l2 : list Event) :
  requests (l1 ++ l2) = requests l1 ++ requests l2.
Proof.
  induction l1 as [| e l1 IH]; [reflexivity|].
  destruct e; cbn; now rewrite IH.
Qed.

Lemma method_eqb_eq (m1 m2 : HttpMethod) :
  method_eqb m1 m2 = true -> m1 = m2.
Proof. destruct m1, m2; (reflexivity || discriminate). Qed.

Variables (auth : option PcloudAuth) (m : HttpMethod) (url : string).

(** What the loop returns is a response with [response.ok], or nothing
    when the verb is DELETE. *)
Lemma exec_loop_returns (sc : list Outcome) :
  forall (o : Options) (i : Z) (lg : list Event)
         (v : option Response) (w' : World),
  exec_loop auth m url o i sc lg = (Ret v, w') ->
  match v with
  | Some r => ok r = true
  | None => m = DELETE
  end.
Proof.
  induction sc as [| f sc IH]; intros o i lg v w'; cbn [exec_loop].
  - destruct (i <? 5); discriminate.
  - destruct (i <? 5); [| discriminate].
    destruct f as [e | r].
    + destruct (fetchRequestCanBeRetried e); [apply IH | discriminate].
    + destruct (negb (ok r)) eqn:Hok.
      * destruct (error_json r) as [ | | message code | ];
          [apply IH | ..];
          repeat match goal with
                 | |- context [if ?c then _ else _] =>
                     let H := fresh "Hc" in destruct c eqn:H
                 | |- context [match ?x with Some _ => _ | None => _ end] =>
                     destruct x
                 end;
          try apply IH; try discriminate;
          intros _;
          match goal with
          | H : _ && method_eqb m DELETE = true |- _ =>
              apply andb_prop in H; destruct H as [_ H];
              exact (method_eqb_eq _ _ H)
          end.
      * intros Heq. injection Heq as <- _.
        now destruct (ok r).
Qed.

(** The attempts of the loop: at most the ones left up to the ceiling,
    plus one for every rate-limited outcome of the script. *)
Lemma exec_loop_attempts (sc : list Outcome) :
  forall (o : Options) (i : Z) (lg : list Event),
  0 <= i <= 5 ->
  Z.of_nat (attempts (log (snd (exec_loop auth m url o i sc lg)))) + i
  <= Z.of_nat (attempts lg) + 5 + Z.of_nat (rate_limited_count sc).
Proof.
  induction sc as [| f sc IH]; intros o i lg Hi; cbn [exec_loop].
  - destruct (i <? 5); cbn; lia.
  - destruct (Z.ltb_spec i 5) as [Hlt | Hge]; [| cbn; lia].
    assert (Hcount : (rate_limited_count sc
                      <= rate_limited_count (f :: sc))%nat).
    { unfold rate_limited_count. cbn [filter].
      destruct (advertised_delay f); cbn; lia. }
    assert (Hsend : forall t u oo j sl,
               attempts (handleRequestRepeat j sl (lg ++ [EvSend t u oo]))
               = Datatypes.S (attempts lg)).
    { intros. unfold handleRequestRepeat. rewrite !attempts_app. cbn. lia. }
    assert (Hone : forall t u oo,
               attempts (lg ++ [EvSend t u oo]) = Datatypes.S (attempts lg)).
    { intros. rewrite attempts_app. cbn. lia. }
    destruct f as [e | r].
    + destruct (fetchRequestCanBeRetried e).
      * specialize (IH (loop_options auth o) (i + 1)
                       (handleRequestRepeat i None
                          (lg ++ [EvSend (transport_of m
                                            (loop_options auth o)) url
                                         (loop_options auth o)]))).
        rewrite Hsend in IH. lia.
      * cbn [snd log]. rewrite Hone. lia.
    + destruct (negb (ok r)) eqn:Hok; [| cbn [snd log]; rewrite Hone; lia].
      destruct (error_json r) as [ | | message code | ] eqn:He.
      * specialize (IH (loop_options auth o) (i + 1)
                       (handleRequestRepeat i None
                          (lg ++ [EvSend (transport_of m
                                            (loop_options auth o)) url
                                         (loop_options auth o)]))).
        rewrite Hsend in IH. lia.
      * cbn. rewrite Hone. lia.
      * cbn [responseToError].
        destruct (code_is {| ae_message := message; ae_code := code |}
                          "InvalidAuthenticationToken"
                  || code_is {| ae_message := message; ae_code := code |}
                             "unauthenticated").
        { specialize (IH (loop_options auth o) (i + 1)
                         (lg ++ [EvSend (transport_of m
                                           (loop_options auth o)) url
                                        (loop_options auth o)])).
          rewrite Hone in IH. lia. }
        destruct (code_is {| ae_message := message; ae_code := code |}
                          "generalException"
                  || code_is {| ae_message := message; ae_code := code |}
                             "EAGAIN").
        { specialize (IH (loop_options auth o) (i + 1)
                         (handleRequestRepeat i None
                            (lg ++ [EvSend (transport_of m
                                              (loop_options auth o)) url
                                           (loop_options auth o)]))).
          rewrite Hsend in IH. lia. }
        destruct (code_is {| ae_message := message; ae_code := code |}
                          "resourceModified").
        { specialize (IH (loop_options auth o) (i + 1)
                         (handleRequestRepeat i None
                            (lg ++ [EvSend (transport_of m
                                              (loop_options auth o)) url
                                           (loop_options auth o)]))).
          rewrite Hsend in IH. lia. }
        destruct (code_is {| ae_message := message; ae_code := code |}
                          "activityLimitReached") eqn:Hcode.
        { destruct (retry_after r) as [values |] eqn:Hra;
            [| cbn [snd log]; rewrite Hone; lia].
          destruct values as [| h more]; cbn [hd_error truthy_ostring andb];
            [cbn [snd log]; rewrite Hone; lia |].
          destruct (truthy_string h && negb (isNaN (Number h))) eqn:Hnum;
            [| cbn [snd log]; rewrite Hone; lia].
          assert (Hadv : rate_limited_count (Responded r :: sc)
                         = Datatypes.S (rate_limited_count sc)).
          { unfold rate_limited_count. cbn [filter advertised_delay].
            rewrite Hok, He. cbn [responseToError andb]. rewrite Hcode, Hra.
            unfold numeric_header. rewrite Hnum. reflexivity. }
          specialize (IH (loop_options auth o) (i - 1 + 1)
                         (handleRequestRepeat (i - 1) (Some (Number h))
                            (lg ++ [EvSend (transport_of m
                                              (loop_options auth o)) url
                                           (loop_options auth o)]))).
          rewrite Hsend in IH. rewrite Hadv. lia. }
        destruct (code_is {| ae_message := message; ae_code := code |}
                          "itemNotFound" && method_eqb m DELETE);
          cbn [snd log]; rewrite Hone; lia.
      * cbn. rewrite Hone. lia.
Qed.

End LoopFacts.

Section LoopSteps.

Context {E : Env}.

Variables (auth : option PcloudAuth) (m : HttpMethod) (url : string).

(** One attempt refused for an expired token: no sleep, next counter. *)
Lemma exec_loop_expired (o : Options) (i : Z) (f : Outcome)
    (rest : list Outcome) (lg : list Event) :
  i < 5 -> auth_expired f = true ->
  exec_loop auth m url o i (f :: rest) lg
  = exec_loop auth m url (loop_options auth o) (i + 1) rest
      (lg ++ [send_event auth m url o]).
Proof.
  intros Hi Hf. apply Z.ltb_lt in Hi.
  destruct f as [e | r]; [discriminate |]. cbn [auth_expired] in Hf.
  apply andb_prop in Hf. destruct Hf as [Hok Hf].
  cbn [exec_loop]. rewrite Hi, Hok.
  destruct (error_json r) as [ | | message code | ];
    try discriminate; rewrite Hf; reflexivity.
Qed.

Lemma exec_loop_expired_run (fs : list Outcome) :
  forall (o : Options) (i : Z) (tl : list Outcome) (lg : list Event),
  i + Z.of_nat (length fs) = 5 ->
  Forall (fun f => auth_expired f = true) fs ->
  exec_loop auth m url o i (fs ++ tl) lg
  = (Throw (Exhausted m url),
     {| script := tl;
        log := lg ++ repeat (send_event auth m url o) (length fs) |}).
Proof.
  induction fs as [| f fs IH]; intros o i tl lg Hlen Hall.
  - cbn in Hlen. cbn [app length repeat].
    rewrite exec_loop_done by lia. now rewrite app_nil_r.
  - inversion Hall as [| ? ? Hf Hfs]; subst. cbn [app length] in *.
    rewrite exec_loop_expired by (assumption || lia).
    rewrite IH by (assumption || lia). rewrite send_event_idem.
    cbn [repeat]. rewrite <- app_assoc. reflexivity.
Qed.

Lemma sleeps_repeat_send (o : Options) (n : nat) :
  sleeps (repeat (send_event auth m url o) n) = [].
Proof. induction n; [reflexivity | assumption]. Qed.

End LoopSteps.

(** X1. Whatever the transport does, what [exec] returns is a response
    with [response.ok], or nothing at all when the verb is DELETE: no
    caller ever receives a failed response. *)
Theorem exec_returns_only_successful_responses {E : Env}
    (auth : option PcloudAuth) (m : HttpMethod) (command : PCloudApiCommand)
    (query : Query) (data : option Data) (options : option Options)
    (w w' : World) (v : option Response) :
  exec auth m command query data options w = (Ret v, w') ->
  match v with
  | Some r => ok r = true
  | None => m = DELETE
  end.
Proof.
  unfold exec. destruct auth as [a |]; [| discriminate].
  apply exec_loop_returns.
Qed.

Lemma exec_returns_only_successful_responses_witness :
  exec (E := Sample.env) (Some Sample.auth) GET stat_ (QPath "/a") None
       None
       {| script := [Sample.reset;
                     Sample.reply (Sample.ok_body (Some Sample.dir_a))];
          log := [] |}
  = (Ret (Some (Sample.success (Sample.ok_body (Some Sample.dir_a)))),
     snd (exec (E := Sample.env) (Some Sample.auth) GET stat_ (QPath "/a")
               None None
               {| script := [Sample.reset;
                             Sample.reply
                               (Sample.ok_body (Some Sample.dir_a))];
                  log := [] |}))
  /\ ok (Sample.success (Sample.ok_body (Some Sample.dir_a))) = true.
Proof.
  split; [reflexivity |].
  exact (exec_returns_only_successful_responses (E := Sample.env)
           (Some Sample.auth) GET stat_ (QPath "/a") None None
           {| script := [Sample.reset;
                         Sample.reply (Sample.ok_body (Some Sample.dir_a))];
              log := [] |}
           _ (Some (Sample.success (Sample.ok_body (Some Sample.dir_a))))
           eq_refl).
Defined.

(** X2. A call of [exec] makes at most five HTTP attempts, plus one for
    every rate-limited outcome it meets: only rate limiting can stretch a
    call beyond the ceiling. *)
Theorem exec_attempts_are_bounded {E : Env}
    (auth : option PcloudAuth) (m : HttpMethod) (command : PCloudApiCommand)
    (query : Query) (data : option Data) (options : option Options)
    (w : World) :
  (attempts (log (snd (exec auth m command query data options w)))
   <= attempts (log w) + 5 + rate_limited_count (script w))%nat.
Proof.
  unfold exec, emit. cbn [script log]. destruct auth as [a |].
  - pose proof (exec_loop_attempts (Some a) m
                  (apiUrl a command (stringify query)) (script w)
                  (exec_options m data options) 0
                  (log w ++ [EvExec m command query data])) as H.
    rewrite attempts_app in H. cbn [attempts] in H. lia.
  - cbn [snd log]. rewrite attempts_app. cbn. lia.
Qed.

(** X3. A rate-limit error whose [retry-after] cannot be used is not
    retried: when the response has no such header entry the lookup itself
    fails and [exec] throws a TypeError; when the first value is missing,
    empty or not a number [exec] throws the provider's error.  Either way
    it has made one attempt and has not slept. *)
Theorem rate_limit_without_usable_header_is_fatal {E : Env}
    (a : PcloudAuth) (m : HttpMethod) (command : PCloudApiCommand)
    (query : Query) (data : option Data) (options : option Options)
    (r : Response) (message : string) (rest : list Outcome)
    (lg : list Event) :
  ok r = false ->
  error_json r = WithError message (Some "activityLimitReached") ->
  match retry_after r with
  | Some (h :: _) => numeric_header h = false
  | _ => True
  end ->
  exec (Some a) m command query data options
       {| script := Responded r :: rest; log := lg |}
  = (Throw (match retry_after r with
            | None => TypeError
            | Some _ =>
                ApiFailure {| ae_message := message;
                              ae_code := Some "activityLimitReached" |} m
                           (apiUrl a command (stringify query))
            end),
     {| script := rest;
        log := lg ++ direct_call a m command query data options |}).
Proof.
  intros Hok He Hh. unfold exec, emit. cbn [script log exec_loop].
  change (0 <? 5) with true. cbn iota. rewrite Hok, He. cbn [negb].
  cbn [responseToError code_is ae_code ostring_is String.eqb Ascii.eqb
       Bool.eqb orb andb].
  rewrite <- app_assoc.
  destruct (retry_after r) as [[| h more] |]; try reflexivity.
  cbn [hd_error truthy_ostring]. unfold numeric_header in Hh.
  rewrite Hh. reflexivity.
Qed.

Lemma rate_limit_without_usable_header_is_fatal_witness :
  fst (exec (E := Sample.env) (Some Sample.auth) GET stat_ (QPath "/a")
            None None
            {| script := [Responded
                            (Sample.failure "Too many requests"
                               "activityLimitReached" None)];
               log := [] |})
  = Throw TypeError
  /\
  fst (exec (E := Sample.env) (Some Sample.auth) GET stat_ (QPath "/a")
            None None
            {| script := [Responded
                            (Sample.failure "Too many requests"
                               "activityLimitReached"
                               (Some ["Wed, 21 Oct 2015 07:28:00 GMT"]))];
               log := [] |})
  = Throw (ApiFailure {| ae_message := "Too many requests";
                         ae_code := Some "activityLimitReached" |} GET
                      "https://api.pcloud.com/stat?path=/a").
Proof.
  split.
  - rewrite (rate_limit_without_usable_header_is_fatal (E := Sample.env)
               Sample.auth GET stat_ (QPath "/a") None None
               (Sample.failure "Too many requests" "activityLimitReached"
                               None)
               "Too many requests" [] [] eq_refl eq_refl I).
    reflexivity.
  - rewrite (rate_limit_without_usable_header_is_fatal (E := Sample.env)
               Sample.auth GET stat_ (QPath "/a") None None
               (Sample.failure "Too many requests" "activityLimitReached"
                               (Some ["Wed, 21 Oct 2015 07:28:00 GMT"]))
               "Too many requests" [] [] eq_refl eq_refl eq_refl).
    reflexivity.
Defined.

(** X4. Five refusals in a row for an expired token
    ([InvalidAuthenticationToken] or [unauthenticated]) use up the five
    attempts without a single sleep in between, and the call throws the
    exhausted-attempts error. *)
Theorem expired_token_exhausts_without_sleeping {E : Env}
    (a : PcloudAuth) (m : HttpMethod) (command : PCloudApiCommand)
    (query : Query) (data : option Data) (options : option Options)
    (fs rest : list Outcome) (lg : list Event) :
  length fs = 5%nat ->
  Forall (fun f => auth_expired f = true) fs ->
  exec (Some a) m command query data options
       {| script := fs ++ rest; log := lg |}
  = (Throw (Exhausted m (apiUrl a command (stringify query))),
     {| script := rest;
        log := lg ++ EvExec m command query data
                  :: repeat (send_event (Some a) m
                               (apiUrl a command (stringify query))
                               (exec_options m data options)) 5 |})
  /\
  sleeps (lg ++ EvExec m command query data
             :: repeat (send_event (Some a) m
                          (apiUrl a command (stringify query))
                          (exec_options m data options)) 5)
  = sleeps lg.
Proof.
  intros Hlen Hfs. split.
  - unfold exec, emit. cbn [script log].
    rewrite exec_loop_expired_run by (assumption || (rewrite Hlen; lia)).
    rewrite Hlen, <- app_assoc. reflexivity.
  - rewrite sleeps_app. cbn [sleeps]. rewrite sleeps_repeat_send.
    apply app_nil_r.
Qed.

Lemma expired_token_exhausts_without_sleeping_witness :
  fst (exec (E := Sample.env) (Some Sample.auth) GET stat_ (QPath "/a")
            None None
            {| script :=
                 repeat (Responded (Sample.failure "expired"
                                      "unauthenticated" None)) 5;
               log := [] |})
  = Throw (Exhausted GET "https://api.pcloud.com/stat?path=/a").
Proof.
  pose proof (expired_token_exhausts_without_sleeping (E := Sample.env)
                Sample.auth GET stat_ (QPath "/a") None None
                (repeat (Responded (Sample.failure "expired"
                                      "unauthenticated" None)) 5)
                [] []) as H.
  destruct H as [H _].
  - reflexivity.
  - repeat constructor.
  - rewrite app_nil_r in H. rewrite H. reflexivity.
Defined.

(** X5. What [exec] cannot classify it throws at the first occurrence,
    after one attempt and without a sleep: a transport error that cannot
    be retried is rethrown as it is, and a provider error that matches
    none of the handled codes is thrown with the method and the URL. *)
Theorem fatal_failures_are_thrown_at_once {E : Env}
    (a : PcloudAuth) (m : HttpMethod) (command : PCloudApiCommand)
    (query : Query) (data : option Data) (options : option Options)
    (e : TransportError) (r : Response) (rest : list Outcome)
    (lg : list Event) :
  fetchRequestCanBeRetried e = false ->
  ok r = false ->
  error_json r <> Unparsable ->
  unhandled m (responseToError (error_json r)) = true ->
  exec (Some a) m command query data options
       {| script := NetworkError e :: rest; log := lg |}
  = (Throw (TransportFailure e),
     {| script := rest;
        log := lg ++ direct_call a m command query data options |})
  /\
  exec (Some a) m command query data options
       {| script := Responded r :: rest; log := lg |}
  = (Throw (ApiFailure (responseToError (error_json r)) m
                       (apiUrl a command (stringify query))),
     {| script := rest;
        log := lg ++ direct_call a m command query data options |})
  /\
  sleeps (lg ++ direct_call a m command query data options) = sleeps lg.
Proof.
  intros He Hok Hb Hu. split; [| split].
  - unfold exec, emit. cbn [script log exec_loop].
    change (0 <? 5) with true. cbn iota. rewrite He, <- app_assoc.
    reflexivity.
  - unfold exec, emit. cbn [script log exec_loop].
    change (0 <? 5) with true. cbn iota. rewrite Hok. cbn [negb].
    rewrite <- app_assoc. unfold unhandled in Hu.
    apply negb_true_iff in Hu.
    repeat (apply orb_false_elim in Hu; destruct Hu as [Hu ?]).
    destruct (error_json r) as [ | | message code | ];
      [contradiction | reflexivity | | reflexivity].
    repeat match goal with
           | H : ?c = false |- context [?c] => rewrite H
           end.
    cbn [orb]. reflexivity.
  - rewrite sleeps_app. cbn. apply app_nil_r.
Qed.

Lemma fatal_failures_are_thrown_at_once_witness :
  fst (exec (E := Sample.env) (Some Sample.auth) GET stat_ (QPath "/a")
            None None
            {| script := [Responded (Sample.failure "denied"
                                       "accessDenied" None)];
               log := [] |})
  = Throw (ApiFailure {| ae_message := "denied";
                         ae_code := Some "accessDenied" |} GET
                      "https://api.pcloud.com/stat?path=/a").
Proof.
  pose proof (fatal_failures_are_thrown_at_once (E := Sample.env)
                Sample.auth GET stat_ (QPath "/a") None None
                {| te_code := "ENOTFOUND"; te_message := "no host" |}
                (Sample.failure "denied" "accessDenied" None) [] [])
    as H.
  destruct H as [_ [H _]].
  - reflexivity.
  - reflexivity.
  - discriminate.
  - reflexivity.
  - rewrite H. reflexivity.
Defined.

(** ** More about the driver *)

Section DriverMore.

Context {E : Env}.

Lemma makeItems_from_map (odItems : list PcloudFileMetadata) :
  forall output : list PcloudFileStat,
  makeItems_from odItems output = output ++ map makeItem odItems.
Proof.
  induction odItems as [| odItem odItems IH]; intros output; cbn.
  - now rewrite app_nil_r.
  - rewrite IH, <- app_assoc. reflexivity.
Qed.

Lemma makePath_slash (path : string) :
  String.prefix "/" (makePath path) = true.
Proof.
  unfold makePath. destruct (String.prefix "/" path) eqn:Hp; [exact Hp |].
  cbn [append String.prefix].
  destruct (Ascii.ascii_dec "/" "/") as [_ | Hne]; [| congruence].
  apply prefix_empty.
Qed.

(** Without a token [exec] throws before any attempt. *)
Lemma exec_without_auth (m : HttpMethod) (command : PCloudApiCommand)
    (query : Query) (data : option Data) (options : option Options)
    (w : World) :
  exec None m command query data options w
  = (Throw TypeError, emit (EvExec m command query data) w).
Proof. reflexivity. Qed.

(** What [exec] leaves in [options.body]. *)
Lemma body_after_exec (auth : option PcloudAuth) (m : HttpMethod)
    (data : option Data) (options : option Options) :
  body (loop_options auth (exec_options m data options))
  = if truthy_data data then data
    else body (match options with Some o => o | None => empty_options end).
Proof.
  unfold loop_options, exec_options.
  destruct options as [o |]; cbn [set_headers set_timeout body];
    destruct data as [[s | inc] |]; cbn [truthy_data];
    repeat match goal with
           | |- context [match ?x with Some _ => _ | None => _ end] =>
               destruct x; cbn
           | |- context [if ?c then _ else _] => destruct c; cbn
           end; reflexivity.
Qed.

Lemma put_none (a : PcloudAuth) (fuel : nat) (path content : string) :
  put (Some a) fuel path content None
  = put (Some a) fuel path content (Some empty_options).
Proof. destruct fuel; reflexivity. Qed.

End DriverMore.

(** X6. [makePath] puts a slash in front of a path that has none and
    leaves every other path as it is: the result always starts with a
    slash, normalising twice changes nothing, and slashes already there
    are not collapsed. *)
Theorem makePath_normalises (p : string) :
  String.prefix "/" (makePath p) = true
  /\ makePath (makePath p) = makePath p
  /\ (makePath p = p \/ makePath p = String "/" p)
  /\ makePath (String "/" (String "/" p)) = String "/" (String "/" p)
  /\ makePath "" = "/".
Proof.
  split; [apply makePath_slash |]. split; [apply makePath_idem |].
  split.
  - unfold makePath. destruct (String.prefix "/" p); [left | right];
      reflexivity.
  - split; [| reflexivity]. unfold makePath. cbn [String.prefix].
    destruct (Ascii.ascii_dec "/" "/") as [_ | Hne]; [| congruence].
    destruct (String.prefix "" (String "/" p)) eqn:H; [reflexivity |].
    now rewrite prefix_empty in H.
Qed.

(** X7. [makeItems] translates the records one by one and keeps their
    order and number. *)
Theorem makeItems_is_map {E : Env} (odItems : list PcloudFileMetadata) :
  makeItems odItems = map makeItem odItems
  /\ length (makeItems odItems) = length odItems.
Proof.
  assert (H : makeItems odItems = map makeItem odItems)
    by (unfold makeItems; now rewrite makeItems_from_map).
  split; [exact H |]. rewrite H. apply length_map.
Qed.

(** X8. [fileExists] makes one shallow listing of the path and reads its
    result code: true on OK, false on [ParentNotFound], and a failure on
    every other code, the file-not-found code that [stat] and [list]
    tolerate included. *)
Theorem fileExists_reads_the_result_code {E : Env}
    (a : PcloudAuth) (path : string) (r : Response) (b : Body)
    (rest : list Outcome) (lg : list Event) :
  answers r b ->
  (fileExists (Some a) path {| script := Responded r :: rest; log := lg |}
   = (if result b =? PCloudResponseCodes.Ok then Ret true
      else if result b =? PCloudResponseCodes.ParentNotFound then Ret false
      else Throw (ExistenceCheckError (error b)),
      {| script := rest;
         log := lg ++ direct_call a GET listfolder
                                  (QList (makePath path) 0) None None |}))
  /\
  (result b = PCloudResponseCodes.FileNotFound ->
   fst (fileExists (Some a) path
                   {| script := Responded r :: rest; log := lg |})
   = Throw (ExistenceCheckError (error b))).
Proof.
  intros Hj.
  assert (H : fileExists (Some a) path
                {| script := Responded r :: rest; log := lg |}
              = (if result b =? PCloudResponseCodes.Ok then Ret true
                 else if result b =? PCloudResponseCodes.ParentNotFound
                      then Ret false
                      else Throw (ExistenceCheckError (error b)),
                 {| script := rest;
                    log := lg ++ direct_call a GET listfolder
                             (QList (makePath path) 0) None None |})).
  { rewrite (fileExists_answer a path r b rest lg Hj).
    destruct (result b =? PCloudResponseCodes.Ok);
      destruct (result b =? PCloudResponseCodes.ParentNotFound);
      reflexivity. }
  split; [exact H |]. intros Hr. rewrite H, Hr. reflexivity.
Qed.

Lemma fileExists_reads_the_result_code_witness :
  fst (fileExists (E := Sample.env) (Some Sample.auth) "a"
         {| script := [Sample.reply (Sample.code_body 2002 "not found")];
            log := [] |})
  = Throw (ExistenceCheckError "not found").
Proof.
  pose proof (fileExists_reads_the_result_code (E := Sample.env)
                Sample.auth "a"
                (Sample.success (Sample.code_body 2002 "not found"))
                (Sample.code_body 2002 "not found") [] []
                (conj eq_refl eq_refl)) as [_ H].
  exact (H eq_refl).
Defined.

(** X10. When the listing is answered with metadata that has contents,
    [list] returns one stat for each entry, in the provider's order; when
    it is answered with any code other than file-not-found and without
    metadata, [ParentNotFound] for one, [list] fails with a TypeError. *)
Theorem list_translates_the_contents {E : Env}
    (a : PcloudAuth) (path : string) (options : option bool)
    (r r' : Response) (b b' : Body) (md : PcloudFileMetadata)
    (cs : list PcloudFileMetadata) (rest : list Outcome)
    (lg : list Event) :
  answers r b ->
  result b <> PCloudResponseCodes.FileNotFound ->
  metadata b = Some md -> contents md = Some cs ->
  answers r' b' ->
  result b' <> PCloudResponseCodes.FileNotFound ->
  metadata b' = None ->
  fst (list_ (Some a) path options
             {| script := Responded r :: rest; log := lg |})
  = Ret {| hasMore := false; items := map makeItem cs |}
  /\
  fst (list_ (Some a) path options
             {| script := Responded r' :: rest; log := lg |})
  = Throw TypeError.
Proof.
  intros [Hok Hj] Hr Hm Hc [Hok' Hj'] Hr' Hm'.
  apply Z.eqb_neq in Hr, Hr'. split.
  - unfold list_, bind. rewrite exec_ok by assumption.
    cbn [response_json]. rewrite Hj. unfold ret at 1.
    rewrite Hr, Hm, Hc. unfold ret, makeItems. cbn [fst].
    now rewrite makeItems_from_map.
  - unfold list_, bind. rewrite exec_ok by assumption.
    cbn [response_json]. rewrite Hj'. unfold ret at 1.
    rewrite Hr', Hm'. reflexivity.
Qed.

Lemma list_translates_the_contents_witness :
  fst (list_ (E := Sample.env) (Some Sample.auth) "" None
         {| script :=
              [Sample.reply
                 (Sample.ok_body
                    (Some {| name := "/"; isfolder := true;
                             isdeleted := false; created := "1000";
                             modified := "2000"; folderid := Some 0;
                             contents := Some [Sample.dir_a;
                                               Sample.dir_b] |}))];
            log := [] |})
  = Ret {| hasMore := false;
           items := [makeItem Sample.dir_a; makeItem Sample.dir_b] |}
  /\
  fst (list_ (E := Sample.env) (Some Sample.auth) "missing" None
         {| script := [Sample.reply
                         (Sample.code_body 2005 "no such directory")];
            log := [] |})
  = Throw TypeError.
Proof.
  apply (list_translates_the_contents (E := Sample.env) Sample.auth
           "" None
           (Sample.success
              (Sample.ok_body
                 (Some {| name := "/"; isfolder := true;
                          isdeleted := false; created := "1000";
                          modified := "2000"; folderid := Some 0;
                          contents := Some [Sample.dir_a;
                                            Sample.dir_b] |})))
           (Sample.success (Sample.code_body 2005 "no such directory"))
           (Sample.ok_body
              (Some {| name := "/"; isfolder := true;
                       isdeleted := false; created := "1000";
                       modified := "2000"; folderid := Some 0;
                       contents := Some [Sample.dir_a; Sample.dir_b] |}))
           (Sample.code_body 2005 "no such directory")
           {| name := "/"; isfolder := true; isdeleted := false;
              created := "1000"; modified := "2000"; folderid := Some 0;
              contents := Some [Sample.dir_a; Sample.dir_b] |}
           [Sample.dir_a; Sample.dir_b] [] []).
  - split; reflexivity.
  - cbv. discriminate.
  - reflexivity.
  - reflexivity.
  - split; reflexivity.
  - cbv. discriminate.
  - reflexivity.
Defined.

(** X11. [list] hands its [options] argument to [exec] in the position of
    the request data: when options are given, the listing goes out as a
    GET request (no [options.method]) whose body is those options. *)
Theorem list_sends_its_options_as_the_body {E : Env}
    (a : PcloudAuth) (path : string) (includeDirs : bool) (r : Response)
    (b : Body) (rest : list Outcome) (lg : list Event) :
  answers r b ->
  requests (log (snd (list_ (Some a) path (Some includeDirs)
                        {| script := Responded r :: rest; log := lg |})))
  = requests lg ++ [(Fetch, None, Some (DListOptions includeDirs))].
Proof.
  intros [Hok Hj]. unfold list_, bind. rewrite exec_ok by assumption.
  cbn [response_json]. rewrite Hj. unfold ret at 1.
  assert (Hlog : requests (lg ++ direct_call a GET listfolder
                             (QList (makePath path) 1)
                             (option_map DListOptions (Some includeDirs))
                             None)
                 = requests lg
                     ++ [(Fetch, None, Some (DListOptions includeDirs))])
    by (rewrite requests_app; reflexivity).
  destruct (result b =? PCloudResponseCodes.FileNotFound);
    [exact Hlog |].
  destruct (metadata b) as [md |]; [| exact Hlog].
  destruct (contents md); exact Hlog.
Qed.

Lemma list_sends_its_options_as_the_body_witness :
  requests (log (snd (list_ (E := Sample.env) (Some Sample.auth) "notes"
                        (Some false)
                        {| script := [Sample.reply
                                        (Sample.code_body 2002
                                           "not found")];
                           log := [] |})))
  = [(Fetch, None, Some (DListOptions false))].
Proof.
  exact (list_sends_its_options_as_the_body (E := Sample.env) Sample.auth
           "notes" false
           (Sample.success (Sample.code_body 2002 "not found"))
           (Sample.code_body 2002 "not found") [] []
           (conj eq_refl eq_refl)).
Defined.

Section PutMore.

Context {E : Env}.

Variable a : PcloudAuth.

Import PCloudResponseCodes.

(** The upload of [putFile] goes through [uploadBlob], as a PUT, with the
    body the caller's options had. *)
Lemma upload_request (o : Options) (q : Query) :
  requests (direct_call a PUT uploadfile q None
                        (Some (set_source "file" o)))
  = [(UploadBlob, Some PUT, body o)].
Proof.
  unfold direct_call, send_event, loop_options, exec_options.
  destruct o as [src tgt mth bd ag hd tm].
  destruct hd; destruct tgt as [[| c t] |]; reflexivity.
Qed.

(** [put] with [options.source === 'file'] is [putFile]. *)
Lemma put_file_eq (fuel : nat) (path content : string) (o : Options) :
  ostring_is (source o) "file" = true ->
  put (Some a) (S fuel) path content (Some o)
  = putFile (Some a) fuel (makePath path) o.
Proof. intros H. rewrite put_eq. cbv zeta. now rewrite H. Qed.

End PutMore.

(** X12. [put] of a local file ([options.source] is ['file']) whose
    parent directory exists makes two calls: the shallow listing of the
    parent and the upload, a PUT through [uploadBlob] into the parent with
    the final component as file name.  It opens no descriptor, creates no
    folder and does not send the [content] argument. *)
Theorem put_file_uploads_into_an_existing_parent {E : Env}
    (a : PcloudAuth) (path content parent filename : string) (o : Options)
    (rp r3 : Response) (bp : Body) (rest : list Outcome) (lg : list Event)
    (fuel : nat) :
  ostring_is (source o) "file" = true ->
  dirname (makePath path) = Some parent ->
  basename (makePath path) = Some filename ->
  answers rp bp -> result bp = PCloudResponseCodes.Ok ->
  ok r3 = true ->
  put (Some a) (S fuel) path content (Some o)
      {| script := Responded rp :: Responded r3 :: rest; log := lg |}
  = (Ret (Some r3),
     {| script := rest;
        log := (lg ++ direct_call a GET listfolder
                        (QList (makePath parent) 0) None None)
                 ++ direct_call a PUT uploadfile
                      (QUpload (String "/" parent) filename) None
                      (Some (set_source "file" o)) |})
  /\
  requests (direct_call a PUT uploadfile
              (QUpload (String "/" parent) filename) None
              (Some (set_source "file" o)))
  = [(UploadBlob, Some PUT, body o)].
Proof.
  intros Hsrc Hdir Hbase Hjp Hrp Hok3. split; [| apply upload_request].
  rewrite put_file_eq by assumption. unfold putFile.
  unfold bind at 1. rewrite Hdir. cbn [path_util]. unfold ret at 1.
  unfold bind at 1. rewrite (fileExists_answer a parent rp bp _ _ Hjp), Hrp.
  cbn [negb andb Z.eqb PCloudResponseCodes.Ok].
  unfold bind at 1. unfold ret at 1. unfold bind at 1.
  rewrite Hbase. cbn [path_util]. unfold ret at 1.
  now rewrite exec_ok by assumption.
Qed.

Lemma put_file_uploads_into_an_existing_parent_witness :
  fst (put (E := Sample.env) (Some Sample.auth) 1 "a/c.txt" ""
         (Some (set_source "file" empty_options))
         {| script := [Sample.reply (Sample.ok_body (Some Sample.dir_a));
                       Responded Sample.written];
            log := [] |})
  = Ret (Some Sample.written).
Proof.
  pose proof (put_file_uploads_into_an_existing_parent (E := Sample.env)
                Sample.auth "a/c.txt" "" "/a" "c.txt"
                (set_source "file" empty_options)
                (Sample.success (Sample.ok_body (Some Sample.dir_a)))
                Sample.written (Sample.ok_body (Some Sample.dir_a)) [] []
                0 eq_refl eq_refl eq_refl (conj eq_refl eq_refl) eq_refl
                eq_refl) as [H _].
  unfold Sample.reply. rewrite H. reflexivity.
Defined.

(** X13. [put] of a local file whose parent directory is missing, with
    [k - 1] missing directories above it, creates the [k] directories
    from the outermost inwards and then uploads; it opens no descriptor. *)
Theorem put_file_creates_the_missing_chain_first {E : Env}
    (a : PcloudAuth) (path content parent filename : string) (o : Options)
    (rp r3 : Response) (bp : Body) (k : nat) (chain : list Outcome)
    (calls : list (option Z * string)) (md : PcloudFileMetadata)
    (rest : list Outcome) (lg : list Event) (fuel : nat) :
  ostring_is (source o) "file" = true ->
  dirname (makePath path) = Some parent ->
  basename (makePath path) = Some filename ->
  answers rp bp -> result bp = PCloudResponseCodes.ParentNotFound ->
  MissingChain k parent chain calls md ->
  ok r3 = true ->
  (k <= fuel)%nat ->
  exists lg1,
    put (Some a) (S fuel) path content (Some o)
        {| script := Responded rp :: chain ++ Responded r3 :: rest;
           log := lg |}
    = (Ret (Some r3),
       {| script := rest;
          log := lg1 ++ direct_call a PUT uploadfile
                          (QUpload (String "/" parent) filename) None
                          (Some (set_source "file" o)) |})
    /\ creation_calls lg1 = creation_calls lg ++ calls
    /\ length calls = k
    /\ file_io_calls
         (lg1 ++ direct_call a PUT uploadfile
                   (QUpload (String "/" parent) filename) None
                   (Some (set_source "file" o)))
       = file_io_calls lg.
Proof.
  intros Hsrc Hdir Hbase Hjp Hrp Hchain Hok3 Hfuel.
  destruct (createDirRecursively_chain a k parent chain calls md Hchain
              fuel (Responded r3 :: rest)
              (lg ++ direct_call a GET listfolder
                       (QList (makePath parent) 0) None None))
    as [lg1 [Hrun [Hcalls Hio]]]; [assumption |].
  exists lg1. split; [| split; [| split]].
  - rewrite put_file_eq by assumption. unfold putFile.
    unfold bind at 1. rewrite Hdir. cbn [path_util]. unfold ret at 1.
    unfold bind at 1. cbn [app].
    rewrite (fileExists_answer a parent rp bp _ _ Hjp), Hrp.
    cbn [negb andb Z.eqb PCloudResponseCodes.Ok
         PCloudResponseCodes.ParentNotFound Pos.eqb].
    unfold bind at 1. rewrite Hrun. unfold bind at 1.
    rewrite Hbase. cbn [path_util]. unfold ret at 1.
    now rewrite exec_ok by assumption.
  - rewrite Hcalls, creation_calls_app. cbn. now rewrite app_nil_r.
  - exact (proj1 (MissingChain_depth _ _ _ _ _ Hchain)).
  - rewrite file_io_calls_app, Hio, file_io_calls_app. cbn.
    now rewrite !app_nil_r.
Qed.

Lemma put_file_creates_the_missing_chain_first_witness :
  fst (put (E := Sample.env) (Some Sample.auth) 2 "a/c.txt" ""
         (Some (set_source "file" empty_options))
         {| script :=
              [Sample.reply (Sample.code_body 2005 "no such directory");
               Sample.reply (Sample.ok_body (Some Sample.root));
               Sample.reply (Sample.ok_body (Some Sample.root));
               Sample.reply (Sample.ok_body (Some Sample.dir_a));
               Responded Sample.written];
            log := [] |})
  = Ret (Some Sample.written).
Proof.
  destruct (put_file_creates_the_missing_chain_first (E := Sample.env)
              Sample.auth "a/c.txt" "" "/a" "c.txt"
              (set_source "file" empty_options)
              (Sample.success (Sample.code_body 2005 "no such directory"))
              Sample.written (Sample.code_body 2005 "no such directory")
              1
              [Sample.reply (Sample.ok_body (Some Sample.root));
               Sample.reply (Sample.ok_body (Some Sample.root));
               Sample.reply (Sample.ok_body (Some Sample.dir_a))]
              [(Some 0, "a")] Sample.dir_a [] [] 1
              eq_refl eq_refl eq_refl (conj eq_refl eq_refl) eq_refl
              (chain_last (E := Sample.env) "/a" "" "a"
                 (Sample.success (Sample.ok_body (Some Sample.root)))
                 (Sample.success (Sample.ok_body (Some Sample.root)))
                 (Sample.success (Sample.ok_body (Some Sample.dir_a)))
                 (Sample.ok_body (Some Sample.root))
                 (Sample.ok_body (Some Sample.root))
                 (Sample.ok_body (Some Sample.dir_a))
                 Sample.root Sample.dir_a
                 eq_refl eq_refl eq_refl (conj eq_refl eq_refl) eq_refl
                 (conj eq_refl eq_refl) eq_refl eq_refl
                 (conj eq_refl eq_refl) eq_refl eq_refl)
              eq_refl (le_n 1))
    as [lg1 [H _]].
  unfold Sample.reply in *. cbn [app] in H. rewrite H. reflexivity.
Defined.

(** X14. In-memory [put] whose [file_open] is answered OK makes two
    calls, the open and a PUT [file_write] on the descriptor of the
    answer, and returns the response of the write.  The content travels
    as the body of the write only when it is not empty: with empty
    content the write goes out with whatever body the caller's options
    had. *)
Theorem put_writes_the_content_unless_empty {E : Env}
    (a : PcloudAuth) (path content : string) (o : Options)
    (r2 r3 : Response) (b2 : Body) (rest : list Outcome) (lg : list Event)
    (fuel : nat) :
  ostring_is (source o) "file" = false ->
  answers r2 b2 -> result b2 = PCloudResponseCodes.Ok ->
  ok r3 = true ->
  exists lg',
    put (Some a) (S fuel) path content (Some o)
        {| script := Responded r2 :: Responded r3 :: rest; log := lg |}
    = (Ret (Some r3), {| script := rest; log := lg' |})
    /\ exec_calls lg'
       = exec_calls lg ++ [(GET, file_open, QOpen 64 (makePath path));
                           (PUT, file_write, QFd (fd b2))]
    /\ map snd (requests lg')
       = map snd (requests lg)
           ++ [body o;
               if truthy_string content then Some (DText content)
               else body o].
Proof.
  intros Hsrc [Hok2 Hj2] Hr2 Hok3. eexists. split; [| split].
  - rewrite put_eq. cbv zeta. rewrite Hsrc.
    unfold bind at 1. rewrite exec_ok by assumption.
    unfold bind at 1. cbn [response_ok]. rewrite Hok2. cbn [negb].
    unfold ret at 1. unfold bind at 1. cbn [response_json]. rewrite Hj2.
    unfold ret at 1. rewrite Hr2.
    cbn [negb Z.eqb PCloudResponseCodes.Ok].
    rewrite exec_ok by assumption. reflexivity.
  - rewrite !exec_calls_app. cbn. now rewrite <- app_assoc.
  - rewrite !requests_app, !map_app, <- app_assoc.
    unfold direct_call, send_event. cbn [requests map snd app].
    rewrite !body_after_exec. cbn [truthy_data].
    unfold options_after_exec. rewrite body_after_exec.
    cbn [truthy_data]. destruct (agent o); reflexivity.
Qed.

Lemma put_writes_the_content_unless_empty_witness :
  map snd
    (requests
       (log (snd (put (E := Sample.env) (Some Sample.auth) 1 "n.md" ""
                    (Some empty_options)
                    {| script := [Sample.reply Sample.opened;
                                  Responded Sample.written];
                       log := [] |}))))
  = [None; None].
Proof.
  destruct (put_writes_the_content_unless_empty (E := Sample.env)
              Sample.auth "n.md" "" empty_options
              (Sample.success Sample.opened) Sample.written Sample.opened
              [] [] 0 eq_refl (conj eq_refl eq_refl) eq_refl eq_refl)
    as [lg' [H [_ Hreq]]].
  unfold Sample.reply. rewrite H. exact Hreq.
Defined.

(** X15. In-memory [put] whose [file_open] is answered with a code that
    is neither OK nor file-not-found fails with an error carrying the
    path, the code and the provider's message, after that single call:
    nothing is created and nothing is written. *)
Theorem put_fails_on_any_other_descriptor_code {E : Env}
    (a : PcloudAuth) (path content : string) (o : Options)
    (r1 : Response) (b1 : Body) (rest : list Outcome) (lg : list Event)
    (fuel : nat) :
  ostring_is (source o) "file" = false ->
  answers r1 b1 ->
  result b1 <> PCloudResponseCodes.Ok ->
  result b1 <> PCloudResponseCodes.FileNotFound ->
  put (Some a) (S fuel) path content (Some o)
      {| script := Responded r1 :: rest; log := lg |}
  = (Throw (DescriptorError (makePath path) (result b1) (error b1)),
     {| script := rest;
        log := lg ++ direct_call a GET file_open
                       (QOpen 64 (makePath path)) None
                       (Some (if agent o then o else set_agent o)) |})
  /\
  exec_calls (lg ++ direct_call a GET file_open
                      (QOpen 64 (makePath path)) None
                      (Some (if agent o then o else set_agent o)))
  = exec_calls lg ++ [(GET, file_open, QOpen 64 (makePath path))].
Proof.
  intros Hsrc [Hok1 Hj1] Hr1 Hr1'. apply Z.eqb_neq in Hr1, Hr1'. split.
  - rewrite put_eq. cbv zeta. rewrite Hsrc.
    unfold bind at 1. rewrite exec_ok by assumption.
    unfold bind at 1. cbn [response_ok]. rewrite Hok1. cbn [negb].
    unfold ret at 1. unfold bind at 1. cbn [response_json]. rewrite Hj1.
    unfold ret at 1. rewrite Hr1, Hr1'. reflexivity.
  - rewrite exec_calls_app. reflexivity.
Qed.

Lemma put_fails_on_any_other_descriptor_code_witness :
  fst (put (E := Sample.env) (Some Sample.auth) 1 "n.md" "hello"
         (Some empty_options)
         {| script := [Sample.reply (Sample.code_body 2008
                                       "User is over quota.")];
            log := [] |})
  = Throw (DescriptorError "/n.md" 2008 "User is over quota.").
Proof.
  pose proof (put_fails_on_any_other_descriptor_code (E := Sample.env)
                Sample.auth "n.md" "hello" empty_options
                (Sample.success (Sample.code_body 2008
                                   "User is over quota."))
                (Sample.code_body 2008 "User is over quota.") [] [] 0)
    as H.
  destruct H as [H _].
  - reflexivity.
  - split; reflexivity.
  - cbv. discriminate.
  - cbv. discriminate.
  - unfold Sample.reply. rewrite H. reflexivity.
Defined.

(** [put] normalises its path first. *)
Lemma put_makePath {E : Env} (a : PcloudAuth) (fuel : nat)
    (path content : string) (options : option Options) :
  put (Some a) fuel (makePath path) content options
  = put (Some a) fuel path content options.
Proof.
  destruct fuel as [| fuel]; [reflexivity |].
  rewrite !put_eq. cbv zeta. now rewrite makePath_idem.
Qed.

(** X16. [put] puts no bound on its retries: as long as [file_open] is
    answered file-not-found it ensures the parent and starts again.  For
    a file directly under the root, [n] such answers in a row, each
    followed by the listing of the root, lead to [n + 1] opens before the
    write, and to no creation call. *)
Theorem put_retries_as_often_as_file_open_fails {E : Env}
    (a : PcloudAuth) (path content : string)
    (r1 rl r2 r3 : Response) (b1 bl b2 : Body) (rest : list Outcome)
    (n : nat) :
  forall (o : Options) (lg : list Event) (fuel : nat),
  ostring_is (source o) "file" = false ->
  answers r1 b1 -> result b1 = PCloudResponseCodes.FileNotFound ->
  dirname (makePath path) = Some "" ->
  answers rl bl ->
  answers r2 b2 -> result b2 = PCloudResponseCodes.Ok ->
  ok r3 = true ->
  (n < fuel)%nat ->
  exists lg',
    put (Some a) fuel path content (Some o)
        {| script := rounds n r1 rl ++ Responded r2 :: Responded r3 :: rest;
           log := lg |}
    = (Ret (Some r3), {| script := rest; log := lg' |})
    /\ creation_calls lg' = creation_calls lg
    /\ length (file_io_calls lg')
       = (length (file_io_calls lg) + (n + 1) + 1)%nat.
Proof.
  induction n as [| n IH]; intros o lg fuel Hsrc Hj1 Hr1 Hdir Hjl Hj2 Hr2
                                  Hok3 Hfuel.
  - destruct fuel as [| fuel]; [lia |]. cbn [rounds app].
    destruct (put_opens_and_writes a fuel path content o r2 r3 b2 rest lg
                Hsrc Hj2 Hr2 Hok3) as [lg' [Hrun [Hc Hio]]].
    exists lg'. split; [exact Hrun |]. split; [exact Hc |].
    rewrite Hio, length_app. cbn. lia.
  - destruct fuel as [| fuel]; [lia |].
    destruct fuel as [| fuel]; [lia |].
    destruct (IH (options_after_exec (Some a) GET None
                    (if agent o then o else set_agent o))
                 ((lg ++ direct_call a GET file_open
                           (QOpen 64 (makePath path)) None
                           (Some (if agent o then o else set_agent o)))
                    ++ lookup_call a "")
                 (S fuel))
      as [lg' [Hrun [Hc Hio]]]; try assumption; [| lia |].
    { rewrite source_after_exec. now rewrite source_set_agent. }
    exists lg'. split; [| split].
    + rewrite put_eq. cbv zeta. rewrite Hsrc.
      destruct Hj1 as [Hok1 Hj1]. cbn [rounds app].
      unfold bind at 1. rewrite exec_ok by assumption.
      unfold bind at 1. cbn [response_ok]. rewrite Hok1. cbn [negb].
      unfold ret at 1. unfold bind at 1. cbn [response_json]. rewrite Hj1.
      unfold ret at 1. rewrite Hr1.
      cbn [negb Z.eqb PCloudResponseCodes.Ok
           PCloudResponseCodes.FileNotFound Pos.eqb].
      unfold bind at 1. rewrite Hdir. cbn [path_util]. unfold ret at 1.
      unfold bind at 1. cbn [createDirRecursively String.eqb orb].
      rewrite (statRaw_answer a "" rl bl _ _ Hjl). cbn [String.eqb].
      rewrite put_makePath. exact Hrun.
    + rewrite Hc, !creation_calls_app, creation_calls_lookup. cbn.
      now rewrite !app_nil_r.
    + rewrite Hio, !file_io_calls_app, file_io_calls_lookup, !length_app.
      cbn. lia.
Qed.

Lemma put_retries_as_often_as_file_open_fails_witness :
  fst (put (E := Sample.env) (Some Sample.auth) 4 "n.md" "hello"
         (Some empty_options)
         {| script :=
              rounds 3 (Sample.success (Sample.code_body 2002 "not found"))
                       (Sample.success (Sample.ok_body (Some Sample.root)))
                ++ [Sample.reply Sample.opened; Responded Sample.written];
            log := [] |})
  = Ret (Some Sample.written).
Proof.
  destruct (put_retries_as_often_as_file_open_fails (E := Sample.env)
              Sample.auth "n.md" "hello"
              (Sample.success (Sample.code_body 2002 "not found"))
              (Sample.success (Sample.ok_body (Some Sample.root)))
              (Sample.success Sample.opened) Sample.written
              (Sample.code_body 2002 "not found")
              (Sample.ok_body (Some Sample.root)) Sample.opened [] 3
              empty_options [] 4
              eq_refl (conj eq_refl eq_refl) eq_refl eq_refl
              (conj eq_refl eq_refl) (conj eq_refl eq_refl) eq_refl
              eq_refl (le_n 4))
    as [lg' [H _]].
  unfold Sample.reply. rewrite H. reflexivity.
Defined.

(** X17. On a client that holds no token every operation of the driver
    fails with a TypeError at its first call of [exec], before any HTTP
    attempt is made. *)
Theorem driver_without_token_makes_no_request {E : Env}
    (path content name : string) (parentFolderId : option Z)
    (options : option bool) (fuel : nat) (w : World) :
  stat None path w
  = (Throw TypeError,
     emit (if String.eqb "" path
           then EvExec GET listfolder (QList "/" 0) None
           else EvExec GET stat_ (QPath (makePath path)) None) w)
  /\ list_ None path options w
     = (Throw TypeError,
        emit (EvExec GET listfolder (QList (makePath path) 1)
                     (option_map DListOptions options)) w)
  /\ mkdir None path w
     = (Throw TypeError,
        emit (if String.eqb "" path
              then EvExec GET listfolder (QList "/" 0) None
              else EvExec GET stat_ (QPath (makePath path)) None) w)
  /\ fileExists None path w
     = (Throw TypeError,
        emit (EvExec GET listfolder (QList (makePath path) 0) None) w)
  /\ execCreateDir None name parentFolderId w
     = (Throw TypeError,
        emit (EvExec GET createfolderifnotexists
                     (QCreate parentFolderId name) None) w)
  /\ delete None path w
     = (Throw TypeError,
        emit (EvExec GET deletefile (QPath (makePath path)) None) w)
  /\ put None (S fuel) path content None w
     = (Throw TypeError,
        emit (EvExec GET file_open (QOpen 64 (makePath path)) None) w)
  /\ forall m c q d,
       attempts (log (emit (EvExec m c q d) w)) = attempts (log w).
Proof.
  assert (Hstat : statRaw None path w
                  = (Throw TypeError,
                     emit (if String.eqb "" path
                           then EvExec GET listfolder (QList "/" 0) None
                           else EvExec GET stat_ (QPath (makePath path))
                                       None) w)).
  { unfold statRaw, rootFolderMetadata, execJson, bind.
    destruct (String.eqb "" path); now rewrite exec_without_auth. }
  repeat apply conj.
  - unfold stat, bind. now rewrite Hstat.
  - unfold list_, bind. now rewrite exec_without_auth.
  - unfold mkdir, stat, bind. now rewrite Hstat.
  - unfold fileExists, bind. now rewrite exec_without_auth.
  - unfold execCreateDir, bind. now rewrite exec_without_auth.
  - unfold delete, bind. now rewrite exec_without_auth.
  - cbn [put]. unfold bind. cbn [source empty_options ostring_is].
    now rewrite exec_without_auth.
  - intros m c q d. unfold emit. cbn [log]. rewrite attempts_app.
    cbn. lia.
Qed.

(** ** The token and its listeners *)

Section ListenerFacts.

Variable S : Type.
Variable silent_name : string -> bool.

Lemma call_listeners_app (ls1 ls2 : list (Callback S))
    (param : option PcloudAuth) (s : S) :
  call_listeners (ls1 ++ ls2) param s
  = match call_listeners ls1 param s with
    | (Ret _, s1) => call_listeners ls2 param s1
    | (Throw e, s1) => (Throw e, s1)
    | (Stuck, s1) => (Stuck, s1)
    end.
Proof.
  revert s. induction ls1 as [| l ls1 IH]; intros s; [reflexivity |].
  cbn [app call_listeners]. destruct (l param s) as [[u | e |] s1];
    [apply IH | reflexivity | reflexivity].
Qed.

Lemma register_all_listeners (cbs : list (Callback S)) :
  forall api : PCloudApi S,
  authRefreshed (register_all cbs api) = authRefreshed api ++ cbs
  /\ auth_ (register_all cbs api) = auth_ api.
Proof.
  induction cbs as [| cb cbs IH]; intros api; cbn [register_all].
  - now rewrite app_nil_r.
  - destruct (IH (snd (on "authRefreshed" cb api))) as [H1 H2].
    rewrite H1, H2. cbn. now rewrite <- app_assoc.
Qed.

Lemma call_listeners_all_return (cbs : list (Callback S))
    (param : option PcloudAuth) :
  (forall cb s, In cb cbs -> fst (cb param s) = Ret tt) ->
  forall s,
  call_listeners cbs param s
  = (Ret tt, fold_left (fun s cb => snd (cb param s)) cbs s).
Proof.
  induction cbs as [| cb cbs IH]; intros Hall s; [reflexivity |].
  cbn [call_listeners fold_left].
  pose proof (Hall cb s (or_introl eq_refl)) as Hcb.
  destruct (cb param s) as [r s1]. cbn in Hcb. subst r.
  apply IH. intros cb' s' Hin. apply Hall. now right.
Qed.

End ListenerFacts.

(** X18. [setAuth] replaces the token and then notifies every listener
    registered with [on('authRefreshed', ...)], once each and in the
    order of registration, with the new token, null included; when they
    all return, the state they act on has gone through each of them in
    that order. *)
Theorem setAuth_notifies_listeners_in_order (S : Type)
    (silent_name : string -> bool) (clientId clientSecret : string)
    (isPublic : bool) (cbs : list (Callback S))
    (auth : option PcloudAuth) (s : S) :
  (forall cb s, In cb cbs -> fst (cb auth s) = Ret tt) ->
  fst (setAuth S silent_name auth
         (register_all cbs (new_PCloudApi clientId clientSecret isPublic))
         s)
  = Ret tt
  /\ auth_ (fst (snd (setAuth S silent_name auth
                        (register_all cbs
                           (new_PCloudApi clientId clientSecret isPublic))
                        s)))
     = auth
  /\ snd (snd (setAuth S silent_name auth
                 (register_all cbs
                    (new_PCloudApi clientId clientSecret isPublic)) s))
     = fold_left (fun s cb => snd (cb auth s)) cbs s.
Proof.
  intros Hall. unfold setAuth, dispatch. cbn [String.eqb Ascii.eqb Bool.eqb
                                              authRefreshed auth_].
  destruct (register_all_listeners S cbs
              (new_PCloudApi clientId clientSecret isPublic)) as [Hls _].
  rewrite Hls. cbn [new_PCloudApi authRefreshed app].
  rewrite (call_listeners_all_return S cbs auth Hall s).
  repeat apply conj; reflexivity.
Qed.

Lemma setAuth_notifies_listeners_in_order_witness :
  snd (snd (setAuth nat Demo.silent None
              (register_all [Demo.count_call; Demo.count_call]
                 (new_PCloudApi "id" "secret" false)) 0%nat))
  = 2%nat.
Proof.
  pose proof (setAuth_notifies_listeners_in_order nat Demo.silent "id"
                "secret" false [Demo.count_call; Demo.count_call] None
                0%nat) as H.
  destruct H as [_ [_ H]].
  - intros cb s [<- | [<- | []]]; reflexivity.
  - rewrite H. reflexivity.
Defined.

(** X19. When a listener throws, [setAuth] fails with that error: the
    token has been replaced all the same, and the listeners registered
    after the failing one are not notified. *)
Theorem setAuth_replaces_the_token_before_a_listener_fails (S : Type)
    (silent_name : string -> bool) (api : PCloudApi S)
    (ls1 ls2 : list (Callback S)) (l : Callback S)
    (auth : option PcloudAuth) (s s1 s2 : S) (e : Err) :
  authRefreshed api = ls1 ++ l :: ls2 ->
  call_listeners ls1 auth s = (Ret tt, s1) ->
  l auth s1 = (Throw e, s2) ->
  setAuth S silent_name auth api s
  = (Throw e,
     ({| clientId_ := clientId_ api; clientSecret_ := clientSecret_ api;
         auth_ := auth; isPublic_ := isPublic_ api;
         authRefreshed := authRefreshed api |}, s2))
  /\ token (auth_ (fst (snd (setAuth S silent_name auth api s))))
     = token auth.
Proof.
  intros Hls H1 Hl.
  assert (H : setAuth S silent_name auth api s
              = (Throw e,
                 ({| clientId_ := clientId_ api;
                     clientSecret_ := clientSecret_ api;
                     auth_ := auth; isPublic_ := isPublic_ api;
                     authRefreshed := authRefreshed api |}, s2))).
  { unfold setAuth, dispatch.
    cbn [String.eqb Ascii.eqb Bool.eqb authRefreshed auth_].
    rewrite Hls, call_listeners_app, H1. cbn [call_listeners].
    rewrite Hl. reflexivity. }
  split; [exact H |]. rewrite H. reflexivity.
Qed.

Lemma setAuth_replaces_the_token_before_a_listener_fails_witness :
  setAuth nat Demo.silent
    (Some {| access_token := "t1"; hostname := "eapi.pcloud.com" |})
    (register_all [Demo.count_call; Demo.refuse; Demo.count_call]
       (new_PCloudApi "id" "secret" false)) 0%nat
  = (Throw (ProviderError "refused"),
     ({| clientId_ := "id"; clientSecret_ := "secret";
         auth_ := Some {| access_token := "t1";
                          hostname := "eapi.pcloud.com" |};
         isPublic_ := false;
         authRefreshed := [Demo.count_call; Demo.refuse;
                           Demo.count_call] |}, 1%nat)).
Proof.
  exact (proj1 (setAuth_replaces_the_token_before_a_listener_fails nat
                  Demo.silent
                  (register_all [Demo.count_call; Demo.refuse;
                                 Demo.count_call]
                     (new_PCloudApi "id" "secret" false))
                  [Demo.count_call] [Demo.count_call] Demo.refuse
                  (Some {| access_token := "t1";
                           hostname := "eapi.pcloud.com" |})
                  0%nat 1%nat 1%nat (ProviderError "refused")
                  eq_refl eq_refl eq_refl)).
Defined.

(** ** The sync target and the stored token *)

Section TargetFacts.

Variable JSON_parse : string -> option (option PcloudAuth).
Variable JSON_stringify : PcloudAuth -> string.
Variables (pcloud_id pcloud_secret : string).
Variable silent_name : string -> bool.

(** [api()] when something is stored under the key of the token. *)
Lemma api_with_stored_text (t : SyncTargetPCloud) (s : Store)
    (text : string) :
  api_ t = None ->
  Setting_value auth_key s = Some text ->
  truthy_string text = true ->
  api JSON_parse JSON_stringify pcloud_id pcloud_secret silent_name t s
  = (let auth := match JSON_parse text with
                 | Some parsed => parsed
                 | None => None
                 end in
     let c := {| clientId_ := pcloud_id; clientSecret_ := pcloud_secret;
                 auth_ := auth;
                 isPublic_ :=
                   negb (ostring_is (Setting_value "appType" s) "cli")
                   && negb (ostring_is (Setting_value "appType" s)
                                       "desktop");
                 authRefreshed := [save_auth JSON_stringify] |} in
     (Ret c,
      ({| api_ := Some c |},
       Setting_setValue auth_key
         (match auth with
          | Some a => Some (JSON_stringify a)
          | None => None
          end) s))).
Proof.
  intros Ht Hs Htext. unfold api. rewrite Ht.
  cbn [on String.eqb Ascii.eqb Bool.eqb new_PCloudApi clientId_
       clientSecret_ auth_ isPublic_ authRefreshed app].
  rewrite Hs. cbn [truthy_ostring]. rewrite Htext. reflexivity.
Qed.

End TargetFacts.

(** X20. When the stored token is not valid JSON, [api()] creates the
    client without a token and, through the listener it has just
    registered, replaces the stored text by null: the unreadable value
    does not survive the start, and the target is not authenticated. *)
Theorem api_erases_a_stored_token_it_cannot_parse
    (JSON_parse : string -> option (option PcloudAuth))
    (JSON_stringify : PcloudAuth -> string)
    (pcloud_id pcloud_secret : string) (silent_name : string -> bool)
    (t : SyncTargetPCloud) (s : Store) (text : string) :
  api_ t = None ->
  Setting_value auth_key s = Some text ->
  truthy_string text = true ->
  JSON_parse text = None ->
  exists c,
    api JSON_parse JSON_stringify pcloud_id pcloud_secret silent_name t s
    = (Ret c, ({| api_ := Some c |}, Setting_setValue auth_key None s))
    /\ auth_ c = None
    /\ Setting_value auth_key (Setting_setValue auth_key None s) = None
    /\ (forall k, String.eqb k auth_key = false ->
        Setting_value k (Setting_setValue auth_key None s)
        = Setting_value k s)
    /\ fst (isAuthenticated JSON_parse JSON_stringify pcloud_id
              pcloud_secret silent_name t s)
       = Ret false.
Proof.
  intros Ht Hs Htext Hparse.
  pose proof (api_with_stored_text JSON_parse JSON_stringify pcloud_id
                pcloud_secret silent_name t s text Ht Hs Htext) as H.
  rewrite Hparse in H. cbv zeta in H.
  eexists. split; [exact H |]. split; [reflexivity |].
  split; [unfold Setting_value, Setting_setValue;
          now rewrite String.eqb_refl |].
  split.
  - intros k Hk. unfold Setting_value, Setting_setValue. now rewrite Hk.
  - unfold isAuthenticated. rewrite H. reflexivity.
Qed.

Lemma api_erases_a_stored_token_it_cannot_parse_witness :
  snd (snd (api Demo.parse Demo.show "id" "secret" Demo.silent Demo.fresh
              (Demo.settings (Some "{eu"))))
      "sync.11.auth"
  = None.
Proof.
  destruct (api_erases_a_stored_token_it_cannot_parse Demo.parse Demo.show
              "id" "secret" Demo.silent Demo.fresh
              (Demo.settings (Some "{eu")) "{eu"
              eq_refl eq_refl eq_refl eq_refl) as [c [H _]].
  rewrite H. reflexivity.
Defined.

(** X21. When the stored token parses, [api()] gives it to the client and
    the listener writes it back: the store then holds
    [JSON.stringify] of what was parsed (null when the text was [null]),
    the other settings are untouched, and the target is authenticated
    exactly when an object was parsed. *)
Theorem api_restores_a_stored_token_and_writes_it_back
    (JSON_parse : string -> option (option PcloudAuth))
    (JSON_stringify : PcloudAuth -> string)
    (pcloud_id pcloud_secret : string) (silent_name : string -> bool)
    (t : SyncTargetPCloud) (s : Store) (text : string)
    (parsed : option PcloudAuth) :
  api_ t = None ->
  Setting_value auth_key s = Some text ->
  truthy_string text = true ->
  JSON_parse text = Some parsed ->
  exists c,
    api JSON_parse JSON_stringify pcloud_id pcloud_secret silent_name t s
    = (Ret c,
       ({| api_ := Some c |},
        Setting_setValue auth_key (option_map JSON_stringify parsed) s))
    /\ auth_ c = parsed
    /\ Setting_value auth_key
         (Setting_setValue auth_key (option_map JSON_stringify parsed) s)
       = option_map JSON_stringify parsed
    /\ (forall k, String.eqb k auth_key = false ->
        Setting_value k
          (Setting_setValue auth_key (option_map JSON_stringify parsed) s)
        = Setting_value k s)
    /\ fst (isAuthenticated JSON_parse JSON_stringify pcloud_id
              pcloud_secret silent_name t s)
       = Ret (match parsed with Some _ => true | None => false end).
Proof.
  intros Ht Hs Htext Hparse.
  pose proof (api_with_stored_text JSON_parse JSON_stringify pcloud_id
                pcloud_secret silent_name t s text Ht Hs Htext) as H.
  rewrite Hparse in H. cbv zeta in H.
  assert (Hv : match parsed with
               | Some a => Some (JSON_stringify a)
               | None => None
               end = option_map JSON_stringify parsed)
    by (destruct parsed; reflexivity).
  rewrite Hv in H.
  eexists. split; [exact H |]. split; [reflexivity |].
  split; [unfold Setting_value, Setting_setValue;
          now rewrite String.eqb_refl |].
  split.
  - intros k Hk. unfold Setting_value, Setting_setValue. now rewrite Hk.
  - unfold isAuthenticated. rewrite H. reflexivity.
Qed.

Lemma api_restores_a_stored_token_and_writes_it_back_witness :
  snd (snd (api Demo.parse Demo.show "id" "secret" Demo.silent Demo.fresh
              (Demo.settings (Some "{eu}"))))
      "sync.11.auth"
  = Some "{t1@eapi.pcloud.com}".
Proof.
  destruct (api_restores_a_stored_token_and_writes_it_back Demo.parse
              Demo.show "id" "secret" Demo.silent Demo.fresh
              (Demo.settings (Some "{eu}")) "{eu}"
              (Some {| access_token := "t1";
                       hostname := "eapi.pcloud.com" |})
              eq_refl eq_refl eq_refl eq_refl) as [c [H _]].
  rewrite H. reflexivity.
Defined.

(** X22. When nothing is stored under the key of the token (null or the
    empty text), [api()] creates the client without a token, registers
    its listener and leaves the settings as they are; a token set later
    on that client is saved under the key. *)
Theorem api_without_a_stored_token_leaves_the_settings
    (JSON_parse : string -> option (option PcloudAuth))
    (JSON_stringify : PcloudAuth -> string)
    (pcloud_id pcloud_secret : string) (silent_name : string -> bool)
    (t : SyncTargetPCloud) (s : Store) (a : PcloudAuth) :
  api_ t = None ->
  truthy_ostring (Setting_value auth_key s) = false ->
  exists c,
    api JSON_parse JSON_stringify pcloud_id pcloud_secret silent_name t s
    = (Ret c, ({| api_ := Some c |}, s))
    /\ auth_ c = None
    /\ fst (isAuthenticated JSON_parse JSON_stringify pcloud_id
              pcloud_secret silent_name t s)
       = Ret false
    /\ forall s', 
         snd (snd (setAuth Store silent_name (Some a) c s')) auth_key
         = Some (JSON_stringify a).
Proof.
  intros Ht Hs.
  assert (H : api JSON_parse JSON_stringify pcloud_id pcloud_secret
                  silent_name t s
              = (let c := {| clientId_ := pcloud_id;
                             clientSecret_ := pcloud_secret;
                             auth_ := None;
                             isPublic_ :=
                               negb (ostring_is (Setting_value "appType" s)
                                                "cli")
                               && negb (ostring_is
                                          (Setting_value "appType" s)
                                          "desktop");
                             authRefreshed := [save_auth JSON_stringify] |}
                 in (Ret c, ({| api_ := Some c |}, s)))).
  { unfold api. rewrite Ht.
    cbn [on String.eqb Ascii.eqb Bool.eqb new_PCloudApi clientId_
         clientSecret_ auth_ isPublic_ authRefreshed app].
    rewrite Hs. reflexivity. }
  cbv zeta in H. eexists. split; [exact H |].
  split; [reflexivity |]. split.
  - unfold isAuthenticated. rewrite H. reflexivity.
  - intros s'. reflexivity.
Qed.

Lemma api_without_a_stored_token_leaves_the_settings_witness :
  snd (snd (api Demo.parse Demo.show "id" "secret" Demo.silent Demo.fresh
              (Demo.settings None)))
      "sync.11.auth"
  = None.
Proof.
  destruct (api_without_a_stored_token_leaves_the_settings Demo.parse
              Demo.show "id" "secret" Demo.silent Demo.fresh
              (Demo.settings None)
              {| access_token := "t1"; hostname := "eapi.pcloud.com" |}
              eq_refl eq_refl) as [c [H _]].
  rewrite H. reflexivity.
Defined.

(** X23. [api()] creates the client once: whenever it has returned a
    client, every later call returns that same client and leaves the
    settings alone, whatever they hold by then. *)
Theorem api_is_created_once
    (JSON_parse : string -> option (option PcloudAuth))
    (JSON_stringify : PcloudAuth -> string)
    (pcloud_id pcloud_secret : string) (silent_name : string -> bool)
    (t t' : SyncTargetPCloud) (s s' : Store) (c : PCloudApi Store) :
  api JSON_parse JSON_stringify pcloud_id pcloud_secret silent_name t s
  = (Ret c, (t', s')) ->
  forall s'',
  api JSON_parse JSON_stringify pcloud_id pcloud_secret silent_name t' s''
  = (Ret c, (t', s'')).
Proof.
  intros H s''.
  assert (Ht' : api_ t' = Some c).
  { unfold api in H. destruct (api_ t) as [c0 |] eqn:Ht.
    - injection H as <- <- _. exact Ht.
    - cbn [on String.eqb Ascii.eqb Bool.eqb] in H.
      destruct (truthy_ostring (Setting_value auth_key s)).
      + unfold setAuth, dispatch in H.
        cbn [String.eqb Ascii.eqb Bool.eqb authRefreshed call_listeners
             save_auth] in H.
        injection H as <- <- _. reflexivity.
      + injection H as <- <- _. reflexivity. }
  unfold api. now rewrite Ht'.
Qed.

Lemma api_is_created_once_witness :
  fst (api Demo.parse Demo.show "id" "secret" Demo.silent
         (fst (snd (api Demo.parse Demo.show "id" "secret" Demo.silent
                      Demo.fresh (Demo.settings (Some "{eu}")))))
         (Demo.settings None))
  = fst (api Demo.parse Demo.show "id" "secret" Demo.silent Demo.fresh
           (Demo.settings (Some "{eu}"))).
Proof.
  exact (f_equal fst
           (api_is_created_once Demo.parse Demo.show "id" "secret"
              Demo.silent Demo.fresh _ (Demo.settings (Some "{eu}")) _ _
              eq_refl (Demo.settings None))).
Defined.

Lemma stat_path_follows_result_code_witness :
  fst (stat (E := Sample.env) (Some Sample.auth) "a"
         {| script := [Sample.reply (Sample.ok_body (Some Sample.dir_a))];
            log := [] |})
  = Ret (Some (makeItem Sample.dir_a)).
Proof.
  pose proof (stat_path_follows_result_code (E := Sample.env) Sample.auth
                "a" (Sample.success (Sample.ok_body (Some Sample.dir_a)))
                (Sample.ok_body (Some Sample.dir_a)) Sample.dir_a [] []
                eq_refl (conj eq_refl eq_refl) (fun _ => eq_refl))
    as [_ [_ H]].
  exact (H eq_refl).
Defined.
